(** * Washing-machine cycle controller (AVRProgrammingTask, main.c)

    A shallow embedding of the interrupt-driven controller of [src/main.c]
    and the properties of its cycle state machine, LED pattern functions
    and seven-segment display routine.

    Modelling conventions.
    - A [uint8_t] is a [Z] in [0, 255]; every store of a computed value
      into an 8-bit object is written with its wrap-around [u8].
    - The C operators [/] and [%] are only ever applied to non-negative
      operands here, where they agree with [Z.div] and [Z.modulo].
    - I/O registers and the four [volatile] globals are the fields of one
      record [mcu]; each C assignment is one setter application and a
      function body is the chain of its assignments, in program order.
    - [PIND] is an input port: every handler takes the value read from it
      as an argument (one sample per handler activation).
    - The interrupt flag registers [TIFR1] and [EIFR] are write-one-to-clear,
      as on the AVR: storing [v] clears the flags selected by [v]. *)

From Stdlib Require Import ZArith List Bool Lia.
Import ListNotations.
Local Open Scope Z_scope.

(** ** Machine integers *)

Definition u8 (z : Z) : Z := z mod 256.

(** ** Bit numbers of <avr/io.h> (avr-libc, ATmega324A) used by main.c *)

Definition PIND4 : Z := 4.
Definition OCIE1A : Z := 1.
Definition OCF1A : Z := 1.
Definition CS10 : Z := 0.
Definition CS11 : Z := 1.
Definition CS12 : Z := 2.
Definition WGM12 : Z := 3.
Definition WGM13 : Z := 4.
Definition INT0 : Z := 0.
Definition INT1 : Z := 1.
Definition INTF0 : Z := 0.
Definition INTF1 : Z := 1.

(** ** Macros *)

(** [#define EXTENDED (((PIND & (1 << PIND4)) == (1 << PIND4)) && (PIND & 3) != 3)] *)
Definition EXTENDED (PIND : Z) : bool :=
  (Z.land PIND (Z.shiftl 1 PIND4) =? Z.shiftl 1 PIND4) && negb (Z.land PIND 3 =? 3).

(** [#define NORMAL (((PIND & (1 << PIND4)) == 0 && (PIND & 3) != 3))] *)
Definition NORMAL (PIND : Z) : bool :=
  (Z.land PIND (Z.shiftl 1 PIND4) =? 0) && negb (Z.land PIND 3 =? 3).

(** ** Constant tables *)

Definition seven_seg : list Z := [8; 1; 64; 121; 84].
Definition pwm : list Z := [230; 128; 26].

(** ** Machine state *)

Record mcu : Set := Mcu {
  PORTA : Z;        (* seven-segment bus: segments in bits 0-6, digit select in bit 7 *)
  PORTC : Z;        (* the four LEDs L0-L3 *)
  OCR0B : Z;        (* PWM compare value; 255 keeps OC0B off *)
  TCCR1B : Z;       (* timer 1 mode and clock select *)
  TIMSK1 : Z;       (* timer 1 interrupt mask *)
  TIFR1 : Z;        (* timer 1 interrupt flags *)
  EIMSK : Z;        (* external interrupt mask *)
  EIFR : Z;         (* external interrupt flags *)
  digit : Z;
  indexNumber : Z;
  timeCounter : Z;
  finished : Z
}.

Definition set_PORTA (v : Z) (s : mcu) : mcu :=
  Mcu v (PORTC s) (OCR0B s) (TCCR1B s) (TIMSK1 s) (TIFR1 s) (EIMSK s) (EIFR s)
      (digit s) (indexNumber s) (timeCounter s) (finished s).
Definition set_PORTC (v : Z) (s : mcu) : mcu :=
  Mcu (PORTA s) v (OCR0B s) (TCCR1B s) (TIMSK1 s) (TIFR1 s) (EIMSK s) (EIFR s)
      (digit s) (indexNumber s) (timeCounter s) (finished s).
Definition set_OCR0B (v : Z) (s : mcu) : mcu :=
  Mcu (PORTA s) (PORTC s) v (TCCR1B s) (TIMSK1 s) (TIFR1 s) (EIMSK s) (EIFR s)
      (digit s) (indexNumber s) (timeCounter s) (finished s).
Definition set_TCCR1B (v : Z) (s : mcu) : mcu :=
  Mcu (PORTA s) (PORTC s) (OCR0B s) v (TIMSK1 s) (TIFR1 s) (EIMSK s) (EIFR s)
      (digit s) (indexNumber s) (timeCounter s) (finished s).
Definition set_TIMSK1 (v : Z) (s : mcu) : mcu :=
  Mcu (PORTA s) (PORTC s) (OCR0B s) (TCCR1B s) v (TIFR1 s) (EIMSK s) (EIFR s)
      (digit s) (indexNumber s) (timeCounter s) (finished s).
Definition set_TIFR1 (v : Z) (s : mcu) : mcu :=
  Mcu (PORTA s) (PORTC s) (OCR0B s) (TCCR1B s) (TIMSK1 s) v (EIMSK s) (EIFR s)
      (digit s) (indexNumber s) (timeCounter s) (finished s).
Definition set_EIMSK (v : Z) (s : mcu) : mcu :=
  Mcu (PORTA s) (PORTC s) (OCR0B s) (TCCR1B s) (TIMSK1 s) (TIFR1 s) v (EIFR s)
      (digit s) (indexNumber s) (timeCounter s) (finished s).
Definition set_EIFR (v : Z) (s : mcu) : mcu :=
  Mcu (PORTA s) (PORTC s) (OCR0B s) (TCCR1B s) (TIMSK1 s) (TIFR1 s) (EIMSK s) v
      (digit s) (indexNumber s) (timeCounter s) (finished s).
Definition set_digit (v : Z) (s : mcu) : mcu :=
  Mcu (PORTA s) (PORTC s) (OCR0B s) (TCCR1B s) (TIMSK1 s) (TIFR1 s) (EIMSK s) (EIFR s)
      v (indexNumber s) (timeCounter s) (finished s).
Definition set_indexNumber (v : Z) (s : mcu) : mcu :=
  Mcu (PORTA s) (PORTC s) (OCR0B s) (TCCR1B s) (TIMSK1 s) (TIFR1 s) (EIMSK s) (EIFR s)
      (digit s) v (timeCounter s) (finished s).
Definition set_timeCounter (v : Z) (s : mcu) : mcu :=
  Mcu (PORTA s) (PORTC s) (OCR0B s) (TCCR1B s) (TIMSK1 s) (TIFR1 s) (EIMSK s) (EIFR s)
      (digit s) (indexNumber s) v (finished s).
Definition set_finished (v : Z) (s : mcu) : mcu :=
  Mcu (PORTA s) (PORTC s) (OCR0B s) (TCCR1B s) (TIMSK1 s) (TIFR1 s) (EIMSK s) (EIFR s)
      (digit s) (indexNumber s) (timeCounter s) v.

(** A store to a flag register clears the flags written as one. *)
Definition clear_TIFR1 (v : Z) (s : mcu) : mcu := set_TIFR1 (Z.ldiff (TIFR1 s) v) s.
Definition clear_EIFR (v : Z) (s : mcu) : mcu := set_EIFR (Z.ldiff (EIFR s) v) s.

(** ** display

    [seven_seg[indexNumber]] is an out-of-bounds read for an index above 4;
    the model returns [None] there. *)
Definition display (indexNumber digit finished : Z) (s : mcu) : option mcu :=
  if finished =? 0 then
    match nth_error seven_seg (Z.to_nat indexNumber) with
    | Some seg => Some (set_PORTA (u8 (Z.lor (Z.land seg 127) (Z.shiftl digit 7))) s)
    | None => None
    end
  else
    Some (set_PORTA (u8 (Z.lor 63 (Z.shiftl digit 7))) s).

(** ** LED pattern functions *)

Definition washCycle (timeCounter : Z) : Z :=
  if (timeCounter / 2) mod 16 <? 8 then
    u8 (Z.shiftl 1 ((timeCounter / 2) mod 4))
  else
    15.

Definition rinseCycle (timeCounter : Z) : Z :=
  if (timeCounter / 2) mod 16 <? 8 then
    u8 (Z.shiftl 1 (3 - (timeCounter / 2) mod 4))
  else if timeCounter mod 4 <? 2 then
    15
  else
    0.

Definition spinCycle (timeCounter : Z) : Z :=
  if (timeCounter / 2) mod 16 <? 4 then
    u8 (Z.shiftl 1 ((timeCounter / 2) mod 4))
  else if (timeCounter / 2) mod 16 <? 8 then
    u8 (Z.shiftl 1 (3 - (timeCounter / 2) mod 4))
  else if timeCounter mod 2 =? 0 then
    15
  else
    0.

(** ** reset and startSystem *)

Definition reset (s : mcu) : mcu :=
  let s := set_timeCounter 0 s in
  let s := set_TIMSK1 (Z.shiftl 0 OCIE1A) s in
  let s := clear_TIFR1 (Z.shiftl 1 OCF1A) s in
  let s := set_OCR0B 255 s in
  let s := set_PORTC 0 s in
  let s := set_TCCR1B (Z.lor (Z.lor (Z.shiftl 0 CS12) (Z.shiftl 0 CS11)) (Z.shiftl 0 CS10)) s in
  let s := set_EIMSK (Z.lor (Z.shiftl 1 INT0) (Z.shiftl 1 INT1)) s in
  let s := clear_EIFR (Z.lor (Z.shiftl 1 INTF0) (Z.shiftl 1 INTF1)) s in
  s.

Definition startSystem (s : mcu) : mcu :=
  let s := set_timeCounter 0 s in
  let s := set_PORTC 1 s in
  let s := set_OCR0B (nth 0 pwm 0) s in
  let s := set_TCCR1B
             (Z.lor (Z.lor (Z.lor (Z.lor (Z.shiftl 0 WGM13) (Z.shiftl 1 WGM12))
                                  (Z.shiftl 1 CS12)) (Z.shiftl 0 CS11)) (Z.shiftl 0 CS10)) s in
  let s := set_TIMSK1 (Z.shiftl 1 OCIE1A) s in
  let s := clear_TIFR1 (Z.shiftl 1 OCF1A) s in
  let s := set_EIMSK (Z.lor (Z.shiftl 0 INT0) (Z.shiftl 1 INT1)) s in
  let s := clear_EIFR (Z.lor (Z.shiftl 1 INTF0) (Z.shiftl 1 INTF1)) s in
  s.

(** ** Interrupt service routines *)

(** [ISR(INT0_vect)]: the start button B0. *)
Definition INT0_vect (PIND : Z) (s : mcu) : mcu :=
  let s := if EXTENDED PIND || NORMAL PIND then startSystem s else s in
  if finished s =? 1 then set_finished 0 s else s.

(** [ISR(INT1_vect)]: the reset button B1. *)
Definition INT1_vect (s : mcu) : mcu :=
  let s := reset s in
  set_finished 0 s.

(** [ISR(TIMER1_COMPA_vect)]: one compare match of timer 1. *)
Definition TIMER1_COMPA_vect (PIND : Z) (s : mcu) : mcu :=
  if EXTENDED PIND then
    let s := set_timeCounter (u8 (timeCounter s + 1)) s in
    if timeCounter s <? 32 then
      set_PORTC (washCycle (timeCounter s)) s
    else if timeCounter s <? 96 then
      let s := set_OCR0B (nth 1 pwm 0) s in
      set_PORTC (rinseCycle (timeCounter s)) s
    else if timeCounter s <? 128 then
      let s := set_OCR0B (nth 2 pwm 0) s in
      set_PORTC (spinCycle (timeCounter s)) s
    else
      let s := reset s in
      set_finished 1 s
  else if NORMAL PIND then
    let s := set_timeCounter (u8 (timeCounter s + 1)) s in
    if timeCounter s <? 32 then
      set_PORTC (washCycle (timeCounter s)) s
    else if timeCounter s <? 64 then
      let s := set_OCR0B (nth 1 pwm 0) s in
      set_PORTC (rinseCycle (timeCounter s)) s
    else if timeCounter s <? 96 then
      let s := set_OCR0B (nth 2 pwm 0) s in
      set_PORTC (spinCycle (timeCounter s)) s
    else
      let s := reset s in
      set_finished 1 s
  else
    s.

(** ** main *)

(** Registers and globals as they are when [main] is entered: I/O registers
    at their reset value, globals zero-initialised. *)
Definition power_on : mcu := Mcu 0 0 0 0 0 0 0 0 0 0 0 0.

(** The part of [main] before the loop.  Registers that are written here and
    nowhere else (data directions, timer 0 and timer 2 set-up, [OCR1A],
    [TCCR1A], [EICRA]) are not part of [mcu]. *)
Definition main_init (s : mcu) : mcu :=
  let s := set_OCR0B 255 s in
  let s := set_TCCR1B
             (Z.lor (Z.lor (Z.lor (Z.lor (Z.shiftl 0 WGM13) (Z.shiftl 1 WGM12))
                                  (Z.shiftl 0 CS12)) (Z.shiftl 0 CS11)) (Z.shiftl 0 CS10)) s in
  let s := set_EIMSK (Z.lor (Z.shiftl 1 INT0) (Z.shiftl 1 INT1)) s in
  let s := clear_EIFR (Z.lor (Z.shiftl 1 INTF0) (Z.shiftl 1 INTF1)) s in
  let s := set_finished 0 s in
  let s := set_digit 0 s in
  s.

(** One iteration of the [while(1)] loop, up to the wait for the refresh
    timer. *)
Definition main_loop_body (PIND : Z) (s : mcu) : option mcu :=
  let s :=
    if digit s =? 0 then
      set_indexNumber (Z.land PIND 3) s
    else if Z.land PIND 16 =? 16 then
      set_indexNumber 3 s
    else
      set_indexNumber 4 s in
  match display (indexNumber s) (digit s) (finished s) s with
  | Some s => Some (set_digit (u8 (1 - digit s)) s)
  | None => None
  end.

(** ** Interrupt delivery

    The hardware side of the three interrupt sources.  A rising edge on B0
    or B1 runs its handler when the source is unmasked in [EIMSK] and is
    latched in [EIFR] otherwise; timer 1 produces compare matches only while
    its clock-select bits are non-zero, and a match runs the handler when
    [OCIE1A] is set in [TIMSK1].  Handlers run to completion. *)

Inductive event : Set := StartEdge | ResetEdge | Tick.

Definition start_enabled (s : mcu) : bool := Z.testbit (EIMSK s) INT0.
Definition reset_enabled (s : mcu) : bool := Z.testbit (EIMSK s) INT1.
Definition clock_running (s : mcu) : bool := negb (Z.land (TCCR1B s) 7 =? 0).
Definition tick_enabled (s : mcu) : bool := Z.testbit (TIMSK1 s) OCIE1A.

(** A cycle is in progress when timer 1 runs with its interrupt unmasked. *)
Definition active (s : mcu) : bool := clock_running s && tick_enabled s.

Definition deliver (PIND : Z) (e : event) (s : mcu) : mcu :=
  match e with
  | StartEdge =>
      if start_enabled s then INT0_vect PIND s
      else set_EIFR (Z.lor (EIFR s) (Z.shiftl 1 INTF0)) s
  | ResetEdge =>
      if reset_enabled s then INT1_vect s
      else set_EIFR (Z.lor (EIFR s) (Z.shiftl 1 INTF1)) s
  | Tick =>
      if clock_running s then
        if tick_enabled s then TIMER1_COMPA_vect PIND s
        else set_TIFR1 (Z.lor (TIFR1 s) (Z.shiftl 1 OCF1A)) s
      else s
  end.

(** A trace is a list of events, each with the value [PIND] has when it is
    handled. *)
Fixpoint run (tr : list (Z * event)) (s : mcu) : mcu :=
  match tr with
  | [] => s
  | (PIND, e) :: tr' => run tr' (deliver PIND e s)
  end.

Definition ticks (pinds : list Z) : list (Z * event) :=
  map (fun PIND => (PIND, Tick)) pinds.

(** States the controller can be in between two handlers. *)
Inductive reachable : mcu -> Prop :=
| reachable_init : reachable (main_init power_on)
| reachable_event : forall PIND e s, reachable s -> reachable (deliver PIND e s)
| reachable_loop : forall PIND s s',
    reachable s -> main_loop_body PIND s = Some s' -> reachable s'.

(** ** Closed form of a cycle under a held mode

    Proof-side description of the state [k] ticks into a cycle during which
    the selector stays in one valid mode; [ext] tells which one. *)

Definition held (ext : bool) (PIND : Z) : bool :=
  if ext then EXTENDED PIND else NORMAL PIND.

Definition spin_from (ext : bool) : Z := if ext then 96 else 64.
Definition done_at (ext : bool) : Z := if ext then 128 else 96.

Definition leds_at (ext : bool) (k : Z) : Z :=
  if k <? 32 then washCycle k
  else if k <? spin_from ext then rinseCycle k
  else spinCycle k.

Definition duty_at (ext : bool) (k : Z) : Z :=
  if k <? 32 then 230 else if k <? spin_from ext then 128 else 26.

Definition in_cycle (ext : bool) (k : Z) (s0 : mcu) : mcu :=
  set_PORTC (leds_at ext k) (set_OCR0B (duty_at ext k) (set_timeCounter k s0)).

(** The controller after power-up, one Start edge with water level 1 in
    normal mode, and the 96 compare matches of a complete normal cycle. *)
Definition after_full_cycle : mcu :=
  run ((1, StartEdge) :: ticks (repeat 1 96%nat)) (main_init power_on).

(** The control invariant of the reachable states: Reset unmasked,
    [finished] a flag, Start masked exactly while a cycle is active. *)
Definition idle_or_running (s : mcu) : Prop :=
  reset_enabled s = true /\
  (finished s = 0 \/ finished s = 1) /\
  start_enabled s = negb (active s).

(** ** Predicates of the state invariants *)

(** The selector allows a cycle: one of the two mode macros holds. *)
Definition valid_mode (PIND : Z) : bool := EXTENDED PIND || NORMAL PIND.

(** Counter and outputs stay in the ranges the handlers write. *)
Definition outputs_in_range (s : mcu) : Prop :=
  0 <= timeCounter s < 128 /\
  0 <= PORTC s <= 15 /\
  (OCR0B s = 255 \/ OCR0B s = 230 \/ OCR0B s = 128 \/ OCR0B s = 26).

(** Timer 1 is clocked exactly when its compare interrupt is unmasked. *)
Definition timer_consistent (s : mcu) : Prop :=
  clock_running s = tick_enabled s.

(** Progress of a cycle [k] compare matches after its start, under any
    valid modes: still running with the counter at [k], or over. *)
Definition cycle_progress (k : Z) (s : mcu) : Prop :=
  (active s = true /\ timeCounter s = k /\ finished s = 0 /\ k < 128) \/
  (96 <= k /\ active s = false /\ clock_running s = false /\ finished s = 1 /\
   timeCounter s = 0 /\ PORTC s = 0 /\ OCR0B s = 255 /\ start_enabled s = true).

(** What the cycle handlers keep true of timer, counter and outputs. *)
Definition cycle_inv (s : mcu) : Prop :=
  timer_consistent s /\
  outputs_in_range s /\
  (active s = false -> timeCounter s = 0 /\ PORTC s = 0 /\ OCR0B s = 255) /\
  (active s = true -> finished s = 0).

(** No Start edge is latched while the Start interrupt is unmasked. *)
Definition no_latched_start (s : mcu) : Prop :=
  start_enabled s = true -> Z.testbit (EIFR s) INTF0 = false.

(** What the main loop keeps true of the fields it owns. *)
Definition display_inv (s : mcu) : Prop :=
  (digit s = 0 \/ digit s = 1) /\ 0 <= PORTA s < 256 /\ 0 <= indexNumber s <= 4.

(** While a cycle is active timer 1 has the configuration [startSystem]
    wrote. *)
Definition timer_as_started (s : mcu) : Prop :=
  active s = true ->
  TCCR1B s = Z.lor (Z.shiftl 1 WGM12) (Z.shiftl 1 CS12) /\
  TIMSK1 s = Z.shiftl 1 OCIE1A.

(** The segment part of a value on the display bus. *)
Definition segments (porta : Z) : Z := Z.land porta 127.

(** * Pattern functions *)

Example washCycle_samples :
  map washCycle [0; 1; 2; 4; 6; 8; 15; 16; 31; 32] = [1; 1; 2; 4; 8; 1; 8; 15; 15; 1].
Proof. reflexivity. Qed.

Example rinseCycle_samples :
  map rinseCycle [0; 2; 4; 6; 8; 16; 17; 18; 19; 20] = [8; 4; 2; 1; 8; 15; 15; 0; 0; 15].
Proof. reflexivity. Qed.

Example spinCycle_samples :
  map spinCycle [0; 2; 6; 8; 10; 14; 16; 17; 18] = [1; 2; 8; 8; 4; 1; 15; 0; 15].
Proof. reflexivity. Qed.

Section Periodicity.

Variable t : Z.
Hypothesis t_u8 : 0 <= t < 256.

Lemma half_mod16_shift : (u8 (t + 32) / 2) mod 16 = (t / 2) mod 16.
Proof. unfold u8. Z.div_mod_to_equations. lia. Qed.

Lemma half_mod4_shift : (u8 (t + 32) / 2) mod 4 = (t / 2) mod 4.
Proof. unfold u8. Z.div_mod_to_equations. lia. Qed.

Lemma mod4_shift : u8 (t + 32) mod 4 = t mod 4.
Proof. unfold u8. Z.div_mod_to_equations. lia. Qed.

Lemma mod2_shift : u8 (t + 32) mod 2 = t mod 2.
Proof. unfold u8. Z.div_mod_to_equations. lia. Qed.

End Periodicity.

(** A single lit LED never leaves the low four bits, so the conversion of
    the shifted value to [uint8_t] loses nothing. *)
Lemma one_hot_u8 (n : Z) : 0 <= n <= 3 -> u8 (Z.shiftl 1 n) = Z.shiftl 1 n.
Proof.
  intros Hn. unfold u8.
  assert (n = 0 \/ n = 1 \/ n = 2 \/ n = 3) as [-> | [-> | [-> | ->]]] by lia;
    reflexivity.
Qed.

(** C3, as the specification states it, fails: at tick 8 the sweep is back on
    L0, so [washCycle 8] is 1 and not 2. *)
Lemma washCycle_points_as_stated_fail :
  ~ (washCycle 0 = 1 /\ washCycle 8 = 2 /\ washCycle 16 = 15).
Proof. intros (_ & H & _). vm_compute in H. discriminate H. Qed.

(** C3 (amended): [washCycle 0 = 1], [washCycle 8 = 1] and
    [washCycle 16 = 0b1111]; no tick before 16 lights all four LEDs, so the
    first transition to all-on is at tick 16. *)
Theorem washCycle_points :
  washCycle 0 = 1 /\ washCycle 8 = 1 /\ washCycle 16 = 15 /\
  (forall t, 0 <= t < 16 -> washCycle t <> 15).
Proof.
  repeat split; try reflexivity.
  intros t Ht. unfold washCycle.
  assert (Hh : 0 <= t / 2 < 8) by (Z.div_mod_to_equations; lia).
  rewrite (Z.mod_small (t / 2) 16) by lia.
  destruct (Z.ltb_spec (t / 2) 8) as [_ | ?]; [| lia].
  assert (Hq : 0 <= (t / 2) mod 4 <= 3) by (Z.div_mod_to_equations; lia).
  rewrite one_hot_u8 by exact Hq.
  assert ((t / 2) mod 4 = 0 \/ (t / 2) mod 4 = 1 \/ (t / 2) mod 4 = 2 \/ (t / 2) mod 4 = 3)
    as [-> | [-> | [-> | ->]]] by lia; discriminate.
Qed.

Lemma washCycle_points_witness : washCycle 15 <> 15.
Proof. apply (proj2 (proj2 (proj2 washCycle_points)) 15). lia. Defined.

(** C4, as the specification states it, fails: the blink is on for ticks 16
    and 17, off for 18 and 19, and on again at 20. *)
Lemma rinseCycle_points_as_stated_fail :
  ~ (rinseCycle 0 = 8 /\ rinseCycle 16 = 15 /\ rinseCycle 18 = 15 /\ rinseCycle 20 = 0).
Proof. intros (_ & _ & H & _). vm_compute in H. discriminate H. Qed.

(** C4 (amended): [rinseCycle 0 = 0b1000], [rinseCycle 16 = 0b1111],
    [rinseCycle 18 = 0] and [rinseCycle 20 = 0b1111]. *)
Theorem rinseCycle_points :
  rinseCycle 0 = 8 /\ rinseCycle 16 = 15 /\ rinseCycle 18 = 0 /\ rinseCycle 20 = 15.
Proof. repeat split; reflexivity. Qed.

(** C10: each pattern function has period 32 on 8-bit tick values, the
    addition wrapping around at 256. *)
Theorem patterns_period_32 :
  forall t, 0 <= t < 256 ->
    washCycle (u8 (t + 32)) = washCycle t /\
    rinseCycle (u8 (t + 32)) = rinseCycle t /\
    spinCycle (u8 (t + 32)) = spinCycle t.
Proof.
  intros t Ht. unfold washCycle, rinseCycle, spinCycle.
  rewrite (half_mod16_shift t Ht), (half_mod4_shift t Ht),
    (mod4_shift t Ht), (mod2_shift t Ht).
  repeat split; reflexivity.
Qed.

Lemma patterns_period_32_witness :
  washCycle (u8 (250 + 32)) = washCycle 250 /\
  rinseCycle (u8 (250 + 32)) = rinseCycle 250 /\
  spinCycle (u8 (250 + 32)) = spinCycle 250.
Proof. apply (patterns_period_32 250). lia. Defined.

(** * Display *)

Lemma segments_of_bus (m d : Z) :
  0 <= m < 128 -> segments (u8 (Z.lor m (Z.shiftl d 7))) = m.
Proof.
  intros Hm. unfold segments, u8.
  change 127 with (Z.ones 7). rewrite Z.land_ones by lia.
  change 256 with (2 ^ 7 * 2). rewrite Z.rem_mul_r by lia.
  rewrite Z.mul_comm, Z.mod_add by lia. rewrite Z.mod_mod by lia.
  rewrite <- Z.land_ones by lia. rewrite Z.land_lor_distr_l.
  rewrite !Z.land_ones by lia. rewrite Z.shiftl_mul_pow2 by lia.
  rewrite Z.mod_mul by lia. rewrite Z.lor_0_r. apply Z.mod_small. exact Hm.
Qed.

(** C9: once [finished] is set, [display] puts the same segment mask (63,
    the glyph 0) on the bus for every index, never reading the table; while
    [finished] is clear, indices 3 and 4 give different segment masks. *)
Theorem display_encoding :
  (forall indexNumber indexNumber' digit finished s,
      finished <> 0 ->
      display indexNumber digit finished s = display indexNumber' digit finished s /\
      exists s', display indexNumber digit finished s = Some s' /\
                 segments (PORTA s') = 63) /\
  (forall digit s,
      exists s3 s4,
        display 3 digit 0 s = Some s3 /\ display 4 digit 0 s = Some s4 /\
        segments (PORTA s3) <> segments (PORTA s4)).
Proof.
  split.
  - intros i i' d f s Hf. unfold display.
    destruct (Z.eqb_spec f 0) as [E | _]; [contradiction |].
    split; [reflexivity |].
    eexists. split; [reflexivity |].
    cbn [PORTA set_PORTA]. apply segments_of_bus. lia.
  - intros d s. unfold display. cbn [Z.eqb Z.to_nat Pos.to_nat Pos.iter_op Nat.add
                                      seven_seg nth_error].
    do 2 eexists. repeat split.
    cbn [PORTA set_PORTA].
    change (Z.land 121 127) with 121. change (Z.land 84 127) with 84.
    rewrite !segments_of_bus by lia. discriminate.
Qed.

Lemma display_encoding_witness :
  display 0 1 1 power_on = display 4 1 1 power_on /\
  exists s', display 0 1 1 power_on = Some s' /\ segments (PORTA s') = 63.
Proof. apply (proj1 display_encoding 0 4 1 1 power_on). discriminate. Defined.

(** * Handlers *)

Ltac mcu_simpl :=
  cbn [PORTA PORTC OCR0B TCCR1B TIMSK1 TIFR1 EIMSK EIFR digit indexNumber
       timeCounter finished
       set_PORTA set_PORTC set_OCR0B set_TCCR1B set_TIMSK1 set_TIFR1 set_EIMSK
       set_EIFR set_digit set_indexNumber set_timeCounter set_finished
       clear_TIFR1 clear_EIFR].

(** Call-by-value unfolding of the register writes: every setter is applied
    to an evaluated record, so the chains of a handler stay linear. *)
Ltac mcu_cbv :=
  cbv [reset startSystem INT1_vect in_cycle
       PORTA PORTC OCR0B TCCR1B TIMSK1 TIFR1 EIMSK EIFR digit indexNumber
       timeCounter finished
       set_PORTA set_PORTC set_OCR0B set_TCCR1B set_TIMSK1 set_TIFR1 set_EIMSK
       set_EIFR set_digit set_indexNumber set_timeCounter set_finished
       clear_TIFR1 clear_EIFR].

Ltac mcu_eq s := destruct s; mcu_cbv; reflexivity.

Lemma NORMAL_not_EXTENDED (PIND : Z) : NORMAL PIND = true -> EXTENDED PIND = false.
Proof.
  unfold NORMAL, EXTENDED. intros H.
  apply andb_true_iff in H. destruct H as [H _].
  apply Z.eqb_eq in H. rewrite H. reflexivity.
Qed.

Lemma invalid_neither (PIND : Z) :
  Z.land PIND 3 = 3 -> EXTENDED PIND = false /\ NORMAL PIND = false.
Proof.
  intros H. unfold EXTENDED, NORMAL. rewrite H.
  split; apply andb_false_r.
Qed.

Lemma held_cases (ext : bool) (PIND : Z) :
  held ext PIND = true -> EXTENDED PIND = ext /\ (ext = false -> NORMAL PIND = true).
Proof.
  destruct ext; unfold held; intros H.
  - split; [exact H | discriminate].
  - split; [apply NORMAL_not_EXTENDED; exact H | intros _; exact H].
Qed.

(** What [reset] leaves behind, whatever the state before. *)
Lemma reset_idle (s : mcu) :
  active (reset s) = false /\ clock_running (reset s) = false /\
  timeCounter (reset s) = 0 /\ PORTC (reset s) = 0 /\ OCR0B (reset s) = 255 /\
  start_enabled (reset s) = true /\ reset_enabled (reset s) = true /\
  finished (reset s) = finished s.
Proof. repeat split. Qed.

Lemma startSystem_running (s : mcu) :
  active (startSystem s) = true /\ timeCounter (startSystem s) = 0 /\
  PORTC (startSystem s) = 1 /\ OCR0B (startSystem s) = 230 /\
  start_enabled (startSystem s) = false /\ reset_enabled (startSystem s) = true /\
  finished (startSystem s) = finished s.
Proof. repeat split. Qed.

Lemma reset_forgets_timeCounter (v : Z) (s : mcu) :
  reset (set_timeCounter v s) = reset s.
Proof. mcu_eq s. Qed.

(** C5: the handler of the Reset edge, from any state and any counter value,
    leaves the timer stopped (no cycle active), the counter at 0, the LEDs
    off, the PWM output off (compare value 255), [finished] clear and the
    Start interrupt unmasked. *)
Theorem reset_edge_returns_to_idle :
  forall s : mcu,
    let s' := INT1_vect s in
    active s' = false /\ timeCounter s' = 0 /\ PORTC s' = 0 /\ OCR0B s' = 255 /\
    finished s' = 0 /\ start_enabled s' = true.
Proof. intros s. repeat split. Qed.

(** C6: with the selector at water level 3, a compare match in an active
    cycle changes nothing: counter, [finished], LEDs and PWM level keep their
    values and the cycle stays active. *)
Theorem tick_invalid_absorbed :
  forall (PIND : Z) (s : mcu),
    Z.land PIND 3 = 3 -> active s = true ->
    let s' := deliver PIND Tick s in
    s' = s /\
    timeCounter s' = timeCounter s /\ finished s' = finished s /\
    PORTC s' = PORTC s /\ OCR0B s' = OCR0B s /\ active s' = true.
Proof.
  intros PIND s Hinv Hact.
  assert (E : deliver PIND Tick s = s).
  { unfold deliver. unfold active in Hact.
    apply andb_true_iff in Hact. destruct Hact as [-> ->].
    unfold TIMER1_COMPA_vect.
    destruct (invalid_neither PIND Hinv) as [-> ->]. reflexivity. }
  cbv zeta. rewrite E. repeat split. exact Hact.
Qed.

Lemma tick_invalid_absorbed_witness :
  let s := deliver 0 StartEdge (main_init power_on) in
  let s' := deliver 3 Tick s in
  s' = s /\
  timeCounter s' = timeCounter s /\ finished s' = finished s /\
  PORTC s' = PORTC s /\ OCR0B s' = OCR0B s /\ active s' = true.
Proof.
  apply (tick_invalid_absorbed 3 (deliver 0 StartEdge (main_init power_on)));
    reflexivity.
Defined.

(** C7: when a compare match takes the final branch of the handler (the
    incremented counter is at least 128 in extended mode, at least 96 in
    normal mode), the state it produces is the state the Reset handler
    produces from the same state, with [finished] 1 instead of 0. *)
Theorem done_is_reset_but_finished :
  forall (PIND : Z) (s : mcu),
    (EXTENDED PIND = true /\ 128 <= u8 (timeCounter s + 1)) \/
    (NORMAL PIND = true /\ 96 <= u8 (timeCounter s + 1)) ->
    TIMER1_COMPA_vect PIND s = set_finished 1 (INT1_vect s) /\
    set_finished 0 (TIMER1_COMPA_vect PIND s) = INT1_vect s /\
    finished (TIMER1_COMPA_vect PIND s) = 1 /\
    finished (INT1_vect s) = 0.
Proof.
  intros PIND s H.
  assert (E : TIMER1_COMPA_vect PIND s = set_finished 1 (INT1_vect s)).
  { unfold TIMER1_COMPA_vect.
    destruct H as [[Hm Ht] | [Hm Ht]].
    - rewrite Hm. cbv zeta. mcu_simpl.
      destruct (Z.ltb_spec (u8 (timeCounter s + 1)) 32); [lia |].
      destruct (Z.ltb_spec (u8 (timeCounter s + 1)) 96); [lia |].
      destruct (Z.ltb_spec (u8 (timeCounter s + 1)) 128); [lia |].
      rewrite reset_forgets_timeCounter. reflexivity.
    - rewrite (NORMAL_not_EXTENDED PIND Hm), Hm. cbv zeta. mcu_simpl.
      destruct (Z.ltb_spec (u8 (timeCounter s + 1)) 32); [lia |].
      destruct (Z.ltb_spec (u8 (timeCounter s + 1)) 64); [lia |].
      destruct (Z.ltb_spec (u8 (timeCounter s + 1)) 96); [lia |].
      rewrite reset_forgets_timeCounter. reflexivity. }
  rewrite E. split; [reflexivity |].
  split; [mcu_eq s |].
  split; reflexivity.
Qed.

Lemma done_is_reset_but_finished_witness :
  let s := set_timeCounter 95 (deliver 1 StartEdge (main_init power_on)) in
  TIMER1_COMPA_vect 1 s = set_finished 1 (INT1_vect s) /\
  set_finished 0 (TIMER1_COMPA_vect 1 s) = INT1_vect s /\
  finished (TIMER1_COMPA_vect 1 s) = 1 /\
  finished (INT1_vect s) = 0.
Proof.
  apply (done_is_reset_but_finished 1
           (set_timeCounter 95 (deliver 1 StartEdge (main_init power_on)))).
  right. split; [reflexivity | vm_compute; discriminate].
Defined.

(** * Traces *)

(** With the timer clock stopped there are no compare matches. *)
Lemma ticks_idle (pinds : list Z) (s : mcu) :
  clock_running s = false -> run (ticks pinds) s = s.
Proof.
  intros Hc. induction pinds as [| PIND pinds IH]; [reflexivity |].
  cbn [ticks map run deliver]. rewrite Hc. exact IH.
Qed.

Lemma reachable_run (tr : list (Z * event)) (s : mcu) :
  reachable s -> reachable (run tr s).
Proof.
  revert s. induction tr as [| [PIND e] tr IH]; intros s Hs; [exact Hs |].
  cbn [run]. apply IH. apply reachable_event. exact Hs.
Qed.

(** * The Start edge *)

Lemma INT0_vect_valid (PIND : Z) (s : mcu) :
  EXTENDED PIND || NORMAL PIND = true ->
  INT0_vect PIND s =
  if finished s =? 1 then set_finished 0 (startSystem s) else startSystem s.
Proof. intros H. unfold INT0_vect. rewrite H. reflexivity. Qed.

Lemma INT0_vect_invalid (PIND : Z) (s : mcu) :
  Z.land PIND 3 = 3 ->
  INT0_vect PIND s = if finished s =? 1 then set_finished 0 s else s.
Proof.
  intros H. unfold INT0_vect.
  destruct (invalid_neither PIND H) as [-> ->]. reflexivity.
Qed.

(** At water level 3 the Start handler leaves a state whose [finished] is
    not 1 exactly as it was. *)
Lemma start_invalid_unfinished (PIND : Z) (s : mcu) :
  Z.land PIND 3 = 3 -> finished s <> 1 -> INT0_vect PIND s = s.
Proof.
  intros H Hf. rewrite (INT0_vect_invalid PIND s H).
  destruct (Z.eqb_spec (finished s) 1); [contradiction | reflexivity].
Qed.

Lemma start_begins_cycle (PIND : Z) (s : mcu) :
  start_enabled s = true -> EXTENDED PIND || NORMAL PIND = true ->
  let s0 := deliver PIND StartEdge s in
  active s0 = true /\ timeCounter s0 = 0 /\ PORTC s0 = 1 /\ OCR0B s0 = 230 /\
  (finished s = 0 \/ finished s = 1 -> finished s0 = 0).
Proof.
  intros He Hv. cbv zeta. unfold deliver. rewrite He.
  rewrite (INT0_vect_valid PIND s Hv).
  destruct (Z.eqb_spec (finished s) 1) as [E | N].
  - repeat split.
  - repeat split. intros [H | H]; [exact H | contradiction].
Qed.

(** * A cycle under a held mode *)

Lemma in_cycle_0 (ext : bool) (s0 : mcu) :
  timeCounter s0 = 0 -> PORTC s0 = 1 -> OCR0B s0 = 230 -> in_cycle ext 0 s0 = s0.
Proof.
  destruct s0. mcu_cbv. intros -> -> ->. reflexivity.
Qed.

Lemma in_cycle_frame (ext : bool) (k : Z) (s0 : mcu) :
  timeCounter (in_cycle ext k s0) = k /\
  PORTC (in_cycle ext k s0) = leds_at ext k /\
  OCR0B (in_cycle ext k s0) = duty_at ext k /\
  active (in_cycle ext k s0) = active s0 /\
  clock_running (in_cycle ext k s0) = clock_running s0 /\
  tick_enabled (in_cycle ext k s0) = tick_enabled s0 /\
  start_enabled (in_cycle ext k s0) = start_enabled s0 /\
  finished (in_cycle ext k s0) = finished s0.
Proof. repeat split. Qed.

Lemma reset_forgets_cycle (ext : bool) (k : Z) (s0 : mcu) :
  reset (in_cycle ext k s0) = reset s0.
Proof. mcu_eq s0. Qed.

Lemma in_cycle_again (ext : bool) (k k' : Z) (s0 : mcu) :
  in_cycle ext k' (in_cycle ext k s0) = in_cycle ext k' s0.
Proof. mcu_eq s0. Qed.

Ltac split_ltb :=
  repeat match goal with
         | |- context [?a <? ?b] => destruct (Z.ltb_spec a b); try lia
         | H : context [?a <? ?b] |- _ => destruct (Z.ltb_spec a b); try lia
         end.

(** One compare match strictly inside a cycle: the handler advances the
    counter and writes the LEDs and PWM level of the new counter value. *)
Lemma tick_step (ext : bool) (PIND : Z) (s : mcu) :
  held ext PIND = true ->
  0 <= timeCounter s -> timeCounter s + 1 < done_at ext ->
  OCR0B s = duty_at ext (timeCounter s) ->
  TIMER1_COMPA_vect PIND s = in_cycle ext (timeCounter s + 1) s.
Proof.
  intros Hh.
  destruct (held_cases ext PIND Hh) as [He Hn].
  unfold TIMER1_COMPA_vect. rewrite He.
  destruct ext; [| rewrite (Hn eq_refl)];
    destruct s as [pa pc oc tc tm tf em ef dg ix k fin];
    mcu_cbv; unfold u8, done_at, duty_at, leds_at, spin_from;
    intros Hk Hlt Hd;
    rewrite (Z.mod_small (k + 1) 256) by lia;
    change (nth 1 pwm 0) with 128; change (nth 2 pwm 0) with 26;
    split_ltb; subst oc; reflexivity.
Qed.

(** The compare match that ends the cycle. *)
Lemma tick_last (ext : bool) (PIND : Z) (s : mcu) :
  held ext PIND = true -> timeCounter s + 1 = done_at ext ->
  TIMER1_COMPA_vect PIND s = set_finished 1 (reset s).
Proof.
  intros Hh Hk.
  destruct (held_cases ext PIND Hh) as [He Hn].
  assert (Hu : u8 (timeCounter s + 1) = done_at ext)
    by (rewrite Hk; destruct ext; reflexivity).
  unfold TIMER1_COMPA_vect. rewrite He.
  destruct ext; [| rewrite (Hn eq_refl)]; cbv zeta; mcu_simpl; rewrite Hu;
    cbn [done_at Z.ltb Z.compare Pos.compare Pos.compare_cont];
    rewrite reset_forgets_timeCounter; reflexivity.
Qed.

Lemma deliver_tick_active (PIND : Z) (s : mcu) :
  active s = true -> deliver PIND Tick s = TIMER1_COMPA_vect PIND s.
Proof.
  intros Ha. apply andb_true_iff in Ha. destruct Ha as [Hc Ht].
  unfold deliver. rewrite Hc, Ht. reflexivity.
Qed.

(** [n] compare matches, none of them the last of the cycle. *)
Lemma run_in_cycle (ext : bool) (pinds : list Z) :
  forall (k : Z) (s0 : mcu),
    forallb (held ext) pinds = true -> active s0 = true ->
    0 <= k -> k + Z.of_nat (length pinds) < done_at ext ->
    run (ticks pinds) (in_cycle ext k s0) =
    in_cycle ext (k + Z.of_nat (length pinds)) s0.
Proof.
  induction pinds as [| PIND pinds IH]; intros k s0 Hh Ha Hk Hlt.
  - cbn [length Z.of_nat ticks map run]. rewrite Z.add_0_r. reflexivity.
  - cbn [forallb] in Hh. apply andb_true_iff in Hh. destruct Hh as [Hp Hh].
    cbn [length] in Hlt |- *. rewrite Nat2Z.inj_succ in Hlt |- *.
    cbn [ticks map run]. fold (ticks pinds).
    rewrite deliver_tick_active by exact Ha.
    rewrite (tick_step ext PIND (in_cycle ext k s0) Hp);
      change (timeCounter (in_cycle ext k s0)) with k; [| lia | lia | reflexivity].
    rewrite in_cycle_again.
    change (timeCounter (in_cycle ext k s0)) with k.
    rewrite (IH (k + 1) s0 Hh Ha) by lia.
    f_equal. lia.
Qed.

(** A whole cycle: the compare match that brings the counter to [done_at]
    resets the machine and sets [finished]. *)
Lemma run_to_done (ext : bool) (pinds : list Z) :
  forall (k : Z) (s0 : mcu),
    forallb (held ext) pinds = true -> active s0 = true ->
    0 <= k < done_at ext -> k + Z.of_nat (length pinds) = done_at ext ->
    run (ticks pinds) (in_cycle ext k s0) = set_finished 1 (reset s0).
Proof.
  induction pinds as [| PIND pinds IH]; intros k s0 Hh Ha Hk Hlen.
  - cbn [length Z.of_nat] in Hlen. lia.
  - cbn [forallb] in Hh. apply andb_true_iff in Hh. destruct Hh as [Hp Hh].
    cbn [length] in Hlen. rewrite Nat2Z.inj_succ in Hlen.
    cbn [ticks map run]. fold (ticks pinds).
    rewrite deliver_tick_active by exact Ha.
    destruct (Z.eq_dec (k + 1) (done_at ext)) as [E | N].
    + rewrite (tick_last ext PIND (in_cycle ext k s0) Hp) by exact E.
      rewrite reset_forgets_cycle.
      apply ticks_idle. reflexivity.
    + rewrite (tick_step ext PIND (in_cycle ext k s0) Hp);
        change (timeCounter (in_cycle ext k s0)) with k; [| lia | lia | reflexivity].
      rewrite in_cycle_again.
      apply (IH (k + 1) s0 Hh Ha); lia.
Qed.

Lemma cycle_from_start (ext : bool) (PIND0 : Z) (pinds : list Z) (s : mcu) :
  start_enabled s = true -> EXTENDED PIND0 || NORMAL PIND0 = true ->
  forallb (held ext) pinds = true ->
  let s0 := deliver PIND0 StartEdge s in
  let k := Z.of_nat (length pinds) in
  (k < done_at ext -> run (ticks pinds) s0 = in_cycle ext k s0) /\
  (k = done_at ext -> run (ticks pinds) s0 = set_finished 1 (reset s0)).
Proof.
  intros He Hv Hh s0 k.
  destruct (start_begins_cycle PIND0 s He Hv) as (Ha & Ht & Hc & Ho & _).
  fold s0 in Ha, Ht, Hc, Ho.
  pose proof (in_cycle_0 ext s0 Ht Hc Ho) as E0.
  split; intros Hk; rewrite <- E0 at 1.
  - rewrite (run_in_cycle ext pinds 0 s0 Hh Ha) by (fold k; lia).
    reflexivity.
  - apply (run_to_done ext pinds 0 s0 Hh Ha); [destruct ext; cbn; lia | exact Hk].
Qed.

(** C1: after a Start edge taken in a valid mode, compare matches handled
    with the selector in normal mode keep the cycle active, with [finished]
    clear and the counter equal to the number of matches, for every number of
    matches below 96; the 96th match leaves the machine reset with [finished]
    set, and no later match changes that state.  In extended mode the same
    holds with 128 in place of 96. *)
Theorem cycle_length :
  forall (s : mcu) (PIND0 : Z) (pinds : list Z),
    start_enabled s = true ->
    finished s = 0 \/ finished s = 1 ->
    EXTENDED PIND0 || NORMAL PIND0 = true ->
    let k := Z.of_nat (length pinds) in
    let sk := run (ticks pinds) (deliver PIND0 StartEdge s) in
    (forallb NORMAL pinds = true ->
       (k < 96 -> active sk = true /\ finished sk = 0 /\ timeCounter sk = k) /\
       (k = 96 ->
          active sk = false /\ finished sk = 1 /\ timeCounter sk = 0 /\
          PORTC sk = 0 /\ OCR0B sk = 255 /\ start_enabled sk = true /\
          forall more, run (ticks more) sk = sk)) /\
    (forallb EXTENDED pinds = true ->
       (k < 128 -> active sk = true /\ finished sk = 0 /\ timeCounter sk = k) /\
       (k = 128 ->
          active sk = false /\ finished sk = 1 /\ timeCounter sk = 0 /\
          PORTC sk = 0 /\ OCR0B sk = 255 /\ start_enabled sk = true /\
          forall more, run (ticks more) sk = sk)).
Proof.
  intros s PIND0 pinds He Hf Hv k sk.
  destruct (start_begins_cycle PIND0 s He Hv) as (Ha & _ & _ & _ & Hfin).
  specialize (Hfin Hf).
  assert (G : forall ext, forallb (held ext) pinds = true ->
    (k < done_at ext -> active sk = true /\ finished sk = 0 /\ timeCounter sk = k) /\
    (k = done_at ext ->
       active sk = false /\ finished sk = 1 /\ timeCounter sk = 0 /\
       PORTC sk = 0 /\ OCR0B sk = 255 /\ start_enabled sk = true /\
       forall more, run (ticks more) sk = sk)).
  { intros ext Hh.
    destruct (cycle_from_start ext PIND0 pinds s He Hv Hh) as [Hin Hdone].
    split; intros Hk.
    - unfold sk. rewrite (Hin Hk). fold k.
      destruct (in_cycle_frame ext k (deliver PIND0 StartEdge s))
        as (-> & _ & _ & -> & _ & _ & _ & ->).
      repeat split; assumption.
    - unfold sk. rewrite (Hdone Hk).
      repeat split. intros more. apply ticks_idle. reflexivity. }
  split; intros Hh.
  - apply (G false). exact Hh.
  - apply (G true). exact Hh.
Qed.

Lemma cycle_length_witness :
  (let sk := run (ticks (repeat 1 96%nat)) (deliver 1 StartEdge (main_init power_on)) in
   active sk = false /\ finished sk = 1 /\ timeCounter sk = 0 /\
   PORTC sk = 0 /\ OCR0B sk = 255 /\ start_enabled sk = true /\
   forall more, run (ticks more) sk = sk) /\
  (let sk := run (ticks (repeat 17 128%nat)) (deliver 17 StartEdge (main_init power_on)) in
   active sk = false /\ finished sk = 1 /\ timeCounter sk = 0 /\
   PORTC sk = 0 /\ OCR0B sk = 255 /\ start_enabled sk = true /\
   forall more, run (ticks more) sk = sk).
Proof.
  split.
  - apply (proj1 (cycle_length (main_init power_on) 1 (repeat 1 96%nat)
                    eq_refl (or_introl eq_refl) eq_refl)).
    + reflexivity.
    + reflexivity.
  - apply (proj2 (cycle_length (main_init power_on) 17 (repeat 17 128%nat)
                    eq_refl (or_introl eq_refl) eq_refl)).
    + reflexivity.
    + reflexivity.
Defined.

(** C8: in a cycle with the selector held in one valid mode, the PWM compare
    value after [k] compare matches is the 10% entry of [pwm] for [k < 32],
    the 50% entry from [k = 32] on, and the 90% entry from [k = 64] on in normal
    mode ([k = 96] in extended mode), until the cycle ends. *)
Theorem duty_cycle_schedule :
  forall (s : mcu) (PIND0 : Z) (pinds : list Z),
    start_enabled s = true ->
    EXTENDED PIND0 || NORMAL PIND0 = true ->
    let k := Z.of_nat (length pinds) in
    let sk := run (ticks pinds) (deliver PIND0 StartEdge s) in
    (forallb NORMAL pinds = true -> k < 96 ->
       timeCounter sk = k /\
       OCR0B sk = if k <? 32 then nth 0 pwm 0
                  else if k <? 64 then nth 1 pwm 0 else nth 2 pwm 0) /\
    (forallb EXTENDED pinds = true -> k < 128 ->
       timeCounter sk = k /\
       OCR0B sk = if k <? 32 then nth 0 pwm 0
                  else if k <? 96 then nth 1 pwm 0 else nth 2 pwm 0).
Proof.
  intros s PIND0 pinds He Hv k sk.
  split; intros Hh Hk.
  - destruct (cycle_from_start false PIND0 pinds s He Hv Hh) as [Hin _].
    unfold sk. rewrite (Hin Hk). split; reflexivity.
  - destruct (cycle_from_start true PIND0 pinds s He Hv Hh) as [Hin _].
    unfold sk. rewrite (Hin Hk). split; reflexivity.
Qed.

Lemma duty_cycle_schedule_witness :
  (OCR0B (run (ticks (repeat 2 31%nat)) (deliver 2 StartEdge (main_init power_on))) = 230 /\
   OCR0B (run (ticks (repeat 2 32%nat)) (deliver 2 StartEdge (main_init power_on))) = 128 /\
   OCR0B (run (ticks (repeat 2 63%nat)) (deliver 2 StartEdge (main_init power_on))) = 128 /\
   OCR0B (run (ticks (repeat 2 64%nat)) (deliver 2 StartEdge (main_init power_on))) = 26) /\
  (OCR0B (run (ticks (repeat 18 95%nat)) (deliver 18 StartEdge (main_init power_on))) = 128 /\
   OCR0B (run (ticks (repeat 18 96%nat)) (deliver 18 StartEdge (main_init power_on))) = 26).
Proof.
  split; [split; [| split; [| split]] | split].
  - apply (proj1 (duty_cycle_schedule (main_init power_on) 2 (repeat 2 31%nat)
                    eq_refl eq_refl)); reflexivity.
  - apply (proj1 (duty_cycle_schedule (main_init power_on) 2 (repeat 2 32%nat)
                    eq_refl eq_refl)); reflexivity.
  - apply (proj1 (duty_cycle_schedule (main_init power_on) 2 (repeat 2 63%nat)
                    eq_refl eq_refl)); reflexivity.
  - apply (proj1 (duty_cycle_schedule (main_init power_on) 2 (repeat 2 64%nat)
                    eq_refl eq_refl)); reflexivity.
  - apply (proj2 (duty_cycle_schedule (main_init power_on) 18 (repeat 18 95%nat)
                    eq_refl eq_refl)); reflexivity.
  - apply (proj2 (duty_cycle_schedule (main_init power_on) 18 (repeat 18 96%nat)
                    eq_refl eq_refl)); reflexivity.
Defined.

(** * Reachable states *)

Lemma TIMER1_COMPA_vect_control (PIND : Z) (s : mcu) :
  let s' := TIMER1_COMPA_vect PIND s in
  (EIMSK s' = EIMSK s /\ TCCR1B s' = TCCR1B s /\ TIMSK1 s' = TIMSK1 s /\
   finished s' = finished s) \/
  (exists s1, s' = set_finished 1 (reset s1)).
Proof.
  cbv zeta. unfold TIMER1_COMPA_vect.
  destruct (EXTENDED PIND); [| destruct (NORMAL PIND)]; cbv zeta;
    repeat match goal with
           | |- context [if ?a <? ?b then _ else _] => destruct (a <? b)
           end;
    try (left; repeat split; reflexivity);
    right; eexists; reflexivity.
Qed.

Lemma main_loop_body_control (PIND : Z) (s s' : mcu) :
  main_loop_body PIND s = Some s' ->
  EIMSK s' = EIMSK s /\ TCCR1B s' = TCCR1B s /\ TIMSK1 s' = TIMSK1 s /\
  finished s' = finished s.
Proof.
  unfold main_loop_body, display.
  repeat match goal with
         | |- context [if ?c then _ else _] => destruct c
         | |- context [match nth_error ?l ?n with _ => _ end] =>
             destruct (nth_error l n)
         end;
    intros H; try discriminate H; injection H as <-; repeat split.
Qed.

Lemma idle_or_running_control (s s' : mcu) :
  EIMSK s' = EIMSK s -> TCCR1B s' = TCCR1B s -> TIMSK1 s' = TIMSK1 s ->
  finished s' = finished s \/ finished s' = 0 ->
  idle_or_running s -> idle_or_running s'.
Proof.
  unfold idle_or_running, reset_enabled, start_enabled, active, clock_running,
    tick_enabled.
  intros -> -> -> Hf (Hr & Hfin & Hs).
  repeat split; try assumption.
  destruct Hf as [-> | ->]; [exact Hfin | left; reflexivity].
Qed.

(** In every reachable state the Reset interrupt is unmasked, [finished] is
    0 or 1, and the Start interrupt is masked exactly while a cycle is
    active. *)
Lemma reachable_idle_or_running (s : mcu) : reachable s -> idle_or_running s.
Proof.
  induction 1 as [| PIND e s Hs IH | PIND s s' Hs IH Hl].
  - repeat split. left; reflexivity.
  - destruct e; unfold deliver.
    + destruct (start_enabled s) eqn:He.
      * unfold INT0_vect.
        destruct (EXTENDED PIND || NORMAL PIND); cbv zeta.
        -- change (finished (startSystem s)) with (finished s).
           destruct (Z.eqb_spec (finished s) 1) as [F | F].
           ++ repeat split. left; reflexivity.
           ++ repeat split. destruct IH as (_ & [F0 | F1] & _);
                [left; exact F0 | contradiction].
        -- destruct (finished s =? 1).
           ++ apply (idle_or_running_control s); try reflexivity; [right; reflexivity | exact IH].
           ++ exact IH.
      * apply (idle_or_running_control s); try reflexivity; [left; reflexivity | exact IH].
    + destruct (reset_enabled s).
      * repeat split. left; reflexivity.
      * apply (idle_or_running_control s); try reflexivity; [left; reflexivity | exact IH].
    + destruct (clock_running s); [| exact IH].
      destruct (tick_enabled s).
      * destruct (TIMER1_COMPA_vect_control PIND s) as [(E1 & E2 & E3 & E4) | [s1 ->]].
        -- apply (idle_or_running_control s); try assumption. left; exact E4.
        -- repeat split. right; reflexivity.
      * apply (idle_or_running_control s); try reflexivity; [left; reflexivity | exact IH].
  - destruct (main_loop_body_control PIND s s' Hl) as (E1 & E2 & E3 & E4).
    apply (idle_or_running_control s); try assumption. left; exact E4.
Qed.

(** * A Start edge at water level 3 *)

Lemma after_full_cycle_reachable : reachable after_full_cycle.
Proof. apply reachable_run. apply reachable_init. Qed.

(** C2 does not hold of the code.  The state reached by a complete normal
    cycle is idle with the Start interrupt unmasked and [finished] set; a
    Start edge handled there with the selector at water level 3 starts no
    cycle, but the handler still clears [finished], and the next display
    refresh puts the table entry for level 3 on the bus in place of the
    completion glyph. *)
Theorem start_invalid_clears_finished :
  let s := after_full_cycle in
  let s' := deliver 3 StartEdge s in
  (start_enabled s = true /\ active s = false /\ finished s = 1) /\
  Z.land 3 3 = 3 /\
  active s' = false /\
  finished s' = 0 /\
  s' <> s /\
  option_map PORTA (main_loop_body 3 s) = Some 63 /\
  option_map PORTA (main_loop_body 3 s') = Some 121.
Proof.
  cbv zeta.
  split; [repeat split; vm_compute; reflexivity |].
  split; [reflexivity |].
  split; [vm_compute; reflexivity |].
  split; [vm_compute; reflexivity |].
  split; [| split; vm_compute; reflexivity].
  intros H. apply (f_equal finished) in H. vm_compute in H. discriminate H.
Qed.

(** * Mode macros *)

Lemma land_16_cases (p : Z) : Z.land p 16 = 0 \/ Z.land p 16 = 16.
Proof.
  destruct (Z.testbit p 4) eqn:E; [right | left];
    apply Z.bits_inj'; intros n Hn; rewrite Z.land_spec;
    change 16 with (2 ^ 4); rewrite Z.pow2_bits_eqb by lia;
    destruct (Z.eqb_spec 4 n) as [<- | N];
    rewrite ?E, ?andb_false_r, ?Z.testbit_0_l; reflexivity.
Qed.

(** X1: the two mode macros never hold together, and one of them holds
    exactly when the two water-level bits of [PIND] are not both set. *)
Theorem mode_macros_partition :
  forall PIND : Z,
    EXTENDED PIND && NORMAL PIND = false /\
    EXTENDED PIND || NORMAL PIND = negb (Z.land PIND 3 =? 3).
Proof.
  intros p. unfold EXTENDED, NORMAL. change (Z.shiftl 1 PIND4) with 16.
  destruct (land_16_cases p) as [-> | ->];
    destruct (Z.land p 3 =? 3); split; reflexivity.
Qed.

(** * Shape of the patterns *)

Lemma one_hot_cases (n : Z) :
  0 <= n <= 3 ->
  u8 (Z.shiftl 1 n) = 1 \/ u8 (Z.shiftl 1 n) = 2 \/
  u8 (Z.shiftl 1 n) = 4 \/ u8 (Z.shiftl 1 n) = 8.
Proof.
  intros Hn.
  assert (n = 0 \/ n = 1 \/ n = 2 \/ n = 3) as [-> | [-> | [-> | ->]]] by lia;
    vm_compute; tauto.
Qed.

(** X2: whatever the counter value, [washCycle] lights one LED or all four,
    and [rinseCycle] and [spinCycle] light one LED, all four or none; no
    pattern ever has a bit above the four LED lines set. *)
Theorem patterns_one_all_none :
  forall t : Z,
    (washCycle t = 1 \/ washCycle t = 2 \/ washCycle t = 4 \/ washCycle t = 8 \/
     washCycle t = 15) /\
    (rinseCycle t = 1 \/ rinseCycle t = 2 \/ rinseCycle t = 4 \/ rinseCycle t = 8 \/
     rinseCycle t = 15 \/ rinseCycle t = 0) /\
    (spinCycle t = 1 \/ spinCycle t = 2 \/ spinCycle t = 4 \/ spinCycle t = 8 \/
     spinCycle t = 15 \/ spinCycle t = 0) /\
    0 <= washCycle t <= 15 /\ 0 <= rinseCycle t <= 15 /\ 0 <= spinCycle t <= 15.
Proof.
  intros t.
  pose proof (Z.mod_pos_bound (t / 2) 4 ltac:(lia)) as Hq.
  pose proof (one_hot_cases ((t / 2) mod 4) ltac:(lia)) as Hup.
  pose proof (one_hot_cases (3 - (t / 2) mod 4) ltac:(lia)) as Hdown.
  unfold washCycle, rinseCycle, spinCycle.
  destruct ((t / 2) mod 16 <? 8), ((t / 2) mod 16 <? 4),
    (t mod 4 <? 2), (t mod 2 =? 0); lia.
Qed.

(** X3: the patterns advance on every second compare match: [washCycle] and
    [rinseCycle] take the same value at [2n] and [2n+1], and so does
    [spinCycle] in its sweeping half, while in its blinking half it is all-on
    at [2n] and all-off at [2n+1]. *)
Theorem patterns_two_ticks :
  forall n : Z,
    washCycle (2 * n + 1) = washCycle (2 * n) /\
    rinseCycle (2 * n + 1) = rinseCycle (2 * n) /\
    (n mod 16 < 8 -> spinCycle (2 * n + 1) = spinCycle (2 * n)) /\
    (8 <= n mod 16 -> spinCycle (2 * n) = 15 /\ spinCycle (2 * n + 1) = 0).
Proof.
  intros n.
  assert (H1 : (2 * n + 1) / 2 = n) by (Z.div_mod_to_equations; lia).
  assert (H0 : (2 * n) / 2 = n) by (Z.div_mod_to_equations; lia).
  assert (Hb : ((2 * n + 1) mod 4 <? 2) = ((2 * n) mod 4 <? 2)).
  { destruct (Z.ltb_spec ((2 * n + 1) mod 4) 2), (Z.ltb_spec ((2 * n) mod 4) 2);
      try reflexivity; Z.div_mod_to_equations; lia. }
  assert (He : (2 * n) mod 2 = 0) by (Z.div_mod_to_equations; lia).
  assert (Ho : (2 * n + 1) mod 2 = 1) by (Z.div_mod_to_equations; lia).
  unfold washCycle, rinseCycle, spinCycle. rewrite H1, H0, Hb, He, Ho.
  repeat split.
  - intros Hn.
    destruct (Z.ltb_spec (n mod 16) 4); [reflexivity |].
    destruct (Z.ltb_spec (n mod 16) 8); [reflexivity | lia].
  - destruct (Z.ltb_spec (n mod 16) 4); [lia |].
    destruct (Z.ltb_spec (n mod 16) 8); [lia | reflexivity].
  - destruct (Z.ltb_spec (n mod 16) 4); [lia |].
    destruct (Z.ltb_spec (n mod 16) 8); [lia | reflexivity].
Qed.

Lemma patterns_two_ticks_witness :
  spinCycle (2 * 3 + 1) = spinCycle (2 * 3) /\
  (spinCycle (2 * 9) = 15 /\ spinCycle (2 * 9 + 1) = 0).
Proof.
  split.
  - apply (proj1 (proj2 (proj2 (patterns_two_ticks 3)))). vm_compute. reflexivity.
  - apply (proj2 (proj2 (proj2 (patterns_two_ticks 9)))). vm_compute. discriminate.
Defined.

(** * Display routine and main loop *)

Lemma land_3_bound (p : Z) : 0 <= Z.land p 3 <= 3.
Proof.
  change 3 with (Z.ones 2) at 1 2. rewrite Z.land_ones by lia.
  pose proof (Z.mod_pos_bound p (2 ^ 2) ltac:(lia)). change (2 ^ 2) with 4 in *. lia.
Qed.

Lemma u8_range (z : Z) : 0 <= u8 z < 256.
Proof. unfold u8. apply Z.mod_pos_bound. lia. Qed.

Lemma digit_select_bit (m d : Z) :
  0 <= m < 128 -> Z.testbit (u8 (Z.lor m (Z.shiftl d 7))) 7 = Z.testbit d 0.
Proof.
  intros Hm. unfold u8. change 256 with (2 ^ 8).
  rewrite Z.mod_pow2_bits_low by lia.
  rewrite Z.lor_spec, Z.shiftl_spec by lia. change (7 - 7) with 0.
  replace (Z.testbit m 7) with false; [reflexivity |].
  symmetry. destruct (Z.eq_dec m 0) as [-> | N]; [apply Z.testbit_0_l |].
  apply Z.bits_above_log2; [lia |].
  apply Z.log2_lt_pow2; [lia |]. change (2 ^ 7) with 128. lia.
Qed.

Lemma seven_seg_lookup (i : Z) :
  0 <= i < 256 ->
  (5 <= i /\ nth_error seven_seg (Z.to_nat i) = None) \/
  (i < 5 /\ exists seg, nth_error seven_seg (Z.to_nat i) = Some seg /\
                        0 <= seg < 128).
Proof.
  intros Hi. destruct (Z_lt_le_dec i 5) as [L | G].
  - right. split; [exact L |].
    assert (i = 0 \/ i = 1 \/ i = 2 \/ i = 3 \/ i = 4)
      as [-> | [-> | [-> | [-> | ->]]]] by lia;
      eexists; (split; [reflexivity | lia]).
  - left. split; [exact G |]. apply nth_error_None.
    cbn [seven_seg length]. lia.
Qed.

(** X4: [display] reads outside [seven_seg] exactly when [finished] is 0
    and the index is 5 or more; in every other case it changes [PORTA] and
    nothing else, and the value it writes fits the 8-bit port. *)
Theorem display_bounds :
  forall (indexNumber digit finished : Z) (s : mcu),
    0 <= indexNumber < 256 ->
    (display indexNumber digit finished s = None <->
     finished = 0 /\ 5 <= indexNumber) /\
    (forall s', display indexNumber digit finished s = Some s' ->
                s' = set_PORTA (PORTA s') s /\ 0 <= PORTA s' < 256).
Proof.
  intros i d f s Hi. unfold display.
  destruct (Z.eqb_spec f 0) as [-> | Nf].
  - destruct (seven_seg_lookup i Hi) as [[G ->] | [L (seg & -> & _)]].
    + split; [split; [intros _; split; [reflexivity | exact G] | reflexivity] |].
      intros s' H. discriminate H.
    + split; [split; [intros H; discriminate H | intros [_ G]; lia] |].
      intros s' H. injection H as <-. split; [reflexivity | apply u8_range].
  - split; [split; [intros H; discriminate H | intros [E _]; contradiction] |].
    intros s' H. injection H as <-. split; [reflexivity | apply u8_range].
Qed.

Lemma display_bounds_witness :
  (display 5 0 0 power_on = None <-> 0 = 0 /\ 5 <= 5) /\
  (forall s', display 5 0 0 power_on = Some s' ->
              s' = set_PORTA (PORTA s') power_on /\ 0 <= PORTA s' < 256).
Proof. apply (display_bounds 5 0 0 power_on). lia. Defined.

(** X5: one pass of the main loop never reads outside [seven_seg], whatever
    the state and the value of [PIND]: the index it computes is at most 4, and
    the pass changes [indexNumber], [PORTA] and [digit] only. *)
Theorem main_loop_body_in_bounds :
  forall (PIND : Z) (s : mcu),
    exists s',
      main_loop_body PIND s = Some s' /\
      0 <= indexNumber s' <= 4 /\
      s' = set_digit (digit s') (set_PORTA (PORTA s')
             (set_indexNumber (indexNumber s') s)).
Proof.
  intros p s. pose proof (land_3_bound p) as Hb.
  unfold main_loop_body, display.
  destruct (digit s =? 0); [| destruct (Z.land p 16 =? 16)]; mcu_simpl;
    destruct (finished s =? 0);
    try (assert (Z.land p 3 = 0 \/ Z.land p 3 = 1 \/ Z.land p 3 = 2 \/ Z.land p 3 = 3)
           as [E | [E | [E | E]]] by lia; rewrite E in *);
    (eexists; split; [reflexivity |]; split; [mcu_simpl; lia |]);
    destruct s; reflexivity.
Qed.

(** X6: with [digit] 0 or 1, a pass of the main loop drives the digit
    selected by [digit] (bit 7 of [PORTA]) and flips [digit] for the next
    pass.  The segments are the completion glyph 63 once [finished] is set;
    otherwise the right digit (0) shows the table entry of the water level
    [PIND & 3] and the left digit (1) shows entry 3 when bit 4 of [PIND] is
    set and entry 4 when it is clear. *)
Theorem main_loop_body_shows :
  forall (PIND : Z) (s : mcu),
    digit s = 0 \/ digit s = 1 ->
    exists s',
      main_loop_body PIND s = Some s' /\
      digit s' = 1 - digit s /\
      Z.testbit (PORTA s') 7 = (digit s =? 1) /\
      segments (PORTA s') =
        if finished s =? 0 then
          if digit s =? 0 then nth (Z.to_nat (Z.land PIND 3)) seven_seg 0
          else if Z.land PIND 16 =? 16 then 121 else 84
        else 63.
Proof.
  intros p s Hd. unfold main_loop_body, display.
  destruct Hd as [Hd | Hd]; rewrite Hd; cbn [Z.eqb Pos.eqb].
  - mcu_simpl. rewrite Hd.
    destruct (finished s =? 0).
    + pose proof (land_3_bound p) as Hb.
      assert (Z.land p 3 = 0 \/ Z.land p 3 = 1 \/ Z.land p 3 = 2 \/ Z.land p 3 = 3)
        as [-> | [-> | [-> | ->]]] by lia;
        (eexists; split; [reflexivity |]; mcu_simpl; rewrite ?Hd;
         split; [reflexivity |]; split; reflexivity).
    + eexists. split; [reflexivity |]. mcu_simpl. rewrite ?Hd.
      split; [reflexivity |]. split; reflexivity.
  - destruct (Z.land p 16 =? 16); mcu_simpl; rewrite Hd;
      destruct (finished s =? 0);
      (eexists; split; [reflexivity |]; mcu_simpl; rewrite ?Hd;
       split; [reflexivity |]; split; reflexivity).
Qed.

Lemma main_loop_body_shows_witness :
  exists s',
    main_loop_body 18 (main_init power_on) = Some s' /\
    digit s' = 1 - digit (main_init power_on) /\
    Z.testbit (PORTA s') 7 = (digit (main_init power_on) =? 1) /\
    segments (PORTA s') =
      if finished (main_init power_on) =? 0 then
        if digit (main_init power_on) =? 0 then nth (Z.to_nat (Z.land 18 3)) seven_seg 0
        else if Z.land 18 16 =? 16 then 121 else 84
      else 63.
Proof. apply (main_loop_body_shows 18 (main_init power_on)). left. reflexivity. Defined.

(** * The cycle under changing modes *)

(** X7: in a cycle with the selector held in one valid mode, the LEDs after
    [k] compare matches show [washCycle k] for [k < 32], then [rinseCycle k],
    and [spinCycle k] from [k = 64] in normal mode ([k = 96] in extended mode),
    until the cycle ends. *)
Theorem leds_schedule :
  forall (s : mcu) (PIND0 : Z) (pinds : list Z),
    start_enabled s = true ->
    EXTENDED PIND0 || NORMAL PIND0 = true ->
    let k := Z.of_nat (length pinds) in
    let sk := run (ticks pinds) (deliver PIND0 StartEdge s) in
    (forallb NORMAL pinds = true -> k < 96 ->
       PORTC sk = if k <? 32 then washCycle k
                  else if k <? 64 then rinseCycle k else spinCycle k) /\
    (forallb EXTENDED pinds = true -> k < 128 ->
       PORTC sk = if k <? 32 then washCycle k
                  else if k <? 96 then rinseCycle k else spinCycle k).
Proof.
  intros s PIND0 pinds He Hv k sk.
  split; intros Hh Hk.
  - destruct (cycle_from_start false PIND0 pinds s He Hv Hh) as [Hin _].
    unfold sk. rewrite (Hin Hk). reflexivity.
  - destruct (cycle_from_start true PIND0 pinds s He Hv Hh) as [Hin _].
    unfold sk. rewrite (Hin Hk). reflexivity.
Qed.

Lemma leds_schedule_witness :
  PORTC (run (ticks (repeat 2 70%nat)) (deliver 2 StartEdge (main_init power_on)))
  = spinCycle 70 /\
  PORTC (run (ticks (repeat 18 70%nat)) (deliver 18 StartEdge (main_init power_on)))
  = rinseCycle 70.
Proof.
  split.
  - apply (proj1 (leds_schedule (main_init power_on) 2 (repeat 2 70%nat)
                    eq_refl eq_refl)); reflexivity.
  - apply (proj2 (leds_schedule (main_init power_on) 18 (repeat 18 70%nat)
                    eq_refl eq_refl)); reflexivity.
Defined.

Lemma valid_mode_cases (PIND : Z) :
  valid_mode PIND = true ->
  EXTENDED PIND = true \/ (EXTENDED PIND = false /\ NORMAL PIND = true).
Proof.
  unfold valid_mode. destruct (EXTENDED PIND); [left; reflexivity |].
  intros H. right. split; [reflexivity | exact H].
Qed.

(** One compare match in a valid mode moves the cycle one step on. *)
Lemma tick_progress (PIND k : Z) (s : mcu) :
  0 <= k -> valid_mode PIND = true ->
  cycle_progress k s -> cycle_progress (k + 1) (deliver PIND Tick s).
Proof.
  intros Hk Hv [(Ha & Ht & Hf & Hlt) | (Hge & Ha & Hc & Hrest)].
  - rewrite deliver_tick_active by exact Ha.
    assert (Hu : u8 (timeCounter s + 1) = k + 1)
      by (rewrite Ht; unfold u8; apply Z.mod_small; lia).
    unfold TIMER1_COMPA_vect, cycle_progress.
    destruct (valid_mode_cases PIND Hv) as [-> | [-> ->]];
      cbv zeta; mcu_simpl; rewrite Hu;
      repeat match goal with
             | |- context [if ?a <? ?b then _ else _] => destruct (Z.ltb_spec a b)
             end;
      try (left; repeat split; first [exact Ha | exact Hf | lia]);
      right; repeat split; lia.
  - right. unfold deliver. rewrite Hc.
    repeat split; try tauto; lia.
Qed.

Lemma run_progress (pinds : list Z) :
  forall (k : Z) (s : mcu),
    0 <= k -> forallb valid_mode pinds = true ->
    cycle_progress k s ->
    cycle_progress (k + Z.of_nat (length pinds)) (run (ticks pinds) s).
Proof.
  induction pinds as [| PIND pinds IH]; intros k s Hk Hv Hp.
  - cbn [length Z.of_nat ticks map run]. rewrite Z.add_0_r. exact Hp.
  - cbn [forallb] in Hv. apply andb_true_iff in Hv. destruct Hv as [Hv1 Hv].
    cbn [length]. rewrite Nat2Z.inj_succ.
    cbn [ticks map run]. fold (ticks pinds).
    replace (k + Z.succ (Z.of_nat (length pinds)))
      with ((k + 1) + Z.of_nat (length pinds)) by lia.
    apply IH; [lia | exact Hv |].
    apply tick_progress; assumption.
Qed.

(** X8: the selector may change between the two valid modes during a
    cycle.  Whatever the sequence of valid modes, the cycle is still active
    with the counter equal to the number of compare matches after fewer than
    96 of them, and after 128 or more it has ended: machine reset, [finished]
    set. *)
Theorem cycle_length_mixed_modes :
  forall (s : mcu) (PIND0 : Z) (pinds : list Z),
    start_enabled s = true ->
    finished s = 0 \/ finished s = 1 ->
    valid_mode PIND0 = true ->
    forallb valid_mode pinds = true ->
    let k := Z.of_nat (length pinds) in
    let sk := run (ticks pinds) (deliver PIND0 StartEdge s) in
    (k < 96 -> active sk = true /\ timeCounter sk = k /\ finished sk = 0) /\
    (128 <= k ->
       active sk = false /\ finished sk = 1 /\ timeCounter sk = 0 /\
       PORTC sk = 0 /\ OCR0B sk = 255 /\ start_enabled sk = true).
Proof.
  intros s PIND0 pinds He Hf Hv Hvs k sk.
  destruct (start_begins_cycle PIND0 s He Hv) as (Ha & Ht & _ & _ & Hfin).
  specialize (Hfin Hf).
  assert (P0 : cycle_progress 0 (deliver PIND0 StartEdge s))
    by (left; repeat split; first [exact Ha | exact Ht | exact Hfin]).
  pose proof (run_progress pinds 0 _ ltac:(lia) Hvs P0) as P.
  rewrite Z.add_0_l in P. fold k sk in P.
  split; intros Hk.
  - destruct P as [(A & T & F & _) | (G & _)]; [| lia].
    repeat split; assumption.
  - destruct P as [(_ & _ & _ & L) | (_ & A & _ & F & T & C & O & E)]; [lia |].
    repeat split; assumption.
Qed.

Lemma cycle_length_mixed_modes_witness :
  let sk := run (ticks (repeat 1 50%nat ++ repeat 17 78%nat))
                (deliver 1 StartEdge (main_init power_on)) in
  active sk = false /\ finished sk = 1 /\ timeCounter sk = 0 /\
  PORTC sk = 0 /\ OCR0B sk = 255 /\ start_enabled sk = true.
Proof.
  apply (proj2 (cycle_length_mixed_modes (main_init power_on) 1
                  (repeat 1 50%nat ++ repeat 17 78%nat)
                  eq_refl (or_introl eq_refl) eq_refl eq_refl)).
  vm_compute. discriminate.
Defined.

(** * Invariants of the reachable states *)

Lemma pattern_range (t : Z) :
  0 <= washCycle t <= 15 /\ 0 <= rinseCycle t <= 15 /\ 0 <= spinCycle t <= 15.
Proof.
  pose proof (Z.mod_pos_bound (t / 2) 4 ltac:(lia)) as Hq.
  pose proof (one_hot_cases ((t / 2) mod 4) ltac:(lia)) as Hup.
  pose proof (one_hot_cases (3 - (t / 2) mod 4) ltac:(lia)) as Hdown.
  unfold washCycle, rinseCycle, spinCycle.
  destruct ((t / 2) mod 16 <? 8), ((t / 2) mod 16 <? 4),
    (t mod 4 <? 2), (t mod 2 =? 0); lia.
Qed.

(** The handler of a compare match either rewrites counter, LEDs and PWM
    level, or ends the cycle. *)
Lemma TIMER1_COMPA_vect_shape (PIND : Z) (s : mcu) :
  (exists tc pc oc,
      TIMER1_COMPA_vect PIND s =
      set_PORTC pc (set_OCR0B oc (set_timeCounter tc s))) \/
  TIMER1_COMPA_vect PIND s = set_finished 1 (reset s).
Proof.
  unfold TIMER1_COMPA_vect.
  destruct (EXTENDED PIND); [| destruct (NORMAL PIND)]; cbv zeta;
    repeat match goal with
           | |- context [if ?a <? ?b then _ else _] => destruct (a <? b)
           end;
    try (right; rewrite reset_forgets_timeCounter; reflexivity);
    left;
    match goal with
    | |- exists _ _ _, set_PORTC ?pc (set_OCR0B ?oc (set_timeCounter ?tc _)) = _ =>
        exists tc, pc, oc; reflexivity
    | |- exists _ _ _, set_PORTC ?pc (set_timeCounter ?tc _) = _ =>
        exists tc, pc, (OCR0B s); mcu_eq s
    | |- exists _ _ _, s = _ =>
        exists (timeCounter s), (PORTC s), (OCR0B s); mcu_eq s
    end.
Qed.

Lemma main_loop_body_frame (PIND : Z) (s s' : mcu) :
  main_loop_body PIND s = Some s' ->
  (PORTC s' = PORTC s /\ OCR0B s' = OCR0B s /\ timeCounter s' = timeCounter s /\
   TIFR1 s' = TIFR1 s /\ EIFR s' = EIFR s) /\
  (digit s' = u8 (1 - digit s) /\ 0 <= PORTA s' < 256 /\ 0 <= indexNumber s' <= 4).
Proof.
  pose proof (land_3_bound PIND) as Hb.
  unfold main_loop_body, display.
  destruct (digit s =? 0); [| destruct (Z.land PIND 16 =? 16)]; mcu_simpl;
    destruct (finished s =? 0);
    repeat match goal with
           | |- context [match nth_error ?l ?n with _ => _ end] =>
               destruct (nth_error l n)
           end;
    intros H; try discriminate H; injection H as <-; mcu_simpl;
    (split; [repeat split |]); (split; [reflexivity |]);
    (split; [apply u8_range | lia]).
Qed.

Lemma cycle_inv_frame (s s' : mcu) :
  TCCR1B s' = TCCR1B s -> TIMSK1 s' = TIMSK1 s ->
  timeCounter s' = timeCounter s -> PORTC s' = PORTC s -> OCR0B s' = OCR0B s ->
  finished s' = finished s \/ finished s' = 0 ->
  cycle_inv s -> cycle_inv s'.
Proof.
  unfold cycle_inv, timer_consistent, outputs_in_range, active, clock_running,
    tick_enabled.
  intros -> -> -> -> -> Hf (Hc & Ho & Hi & Ha).
  repeat split; try tauto; try lia.
  intros H. destruct Hf as [-> | ->]; [exact (Ha H) | reflexivity].
Qed.

Lemma cycle_inv_stopped (v : Z) (s : mcu) : cycle_inv (set_finished v (reset s)).
Proof.
  unfold cycle_inv, timer_consistent, outputs_in_range.
  split; [reflexivity |].
  split; [split; [split; [reflexivity | reflexivity] |
          split; [split; discriminate | left; reflexivity]] |].
  split; [intros _; repeat split | intros H; discriminate H].
Qed.

Lemma cycle_inv_started (s : mcu) :
  finished s = 0 \/ finished s = 1 ->
  cycle_inv (if finished s =? 1 then set_finished 0 (startSystem s)
             else startSystem s).
Proof.
  intros Hf. unfold cycle_inv, timer_consistent, outputs_in_range.
  destruct (Z.eqb_spec (finished s) 1) as [E | N].
  - split; [reflexivity |].
    split; [split; [split; [reflexivity | reflexivity] |
            split; [split; discriminate | right; left; reflexivity]] |].
    split; [intros H; discriminate H | intros _; reflexivity].
  - split; [reflexivity |].
    split; [split; [split; [reflexivity | reflexivity] |
            split; [split; discriminate | right; left; reflexivity]] |].
    split; [intros H; discriminate H | intros _].
    change (finished (startSystem s)) with (finished s).
    destruct Hf as [F | F]; [exact F | contradiction].
Qed.

Lemma cycle_inv_tick (PIND : Z) (s : mcu) :
  cycle_inv s -> active s = true -> cycle_inv (TIMER1_COMPA_vect PIND s).
Proof.
  intros (Hc & (Ht & Hp & Ho) & Hi & Ha) Hact.
  assert (Hu : u8 (timeCounter s + 1) = timeCounter s + 1)
    by (unfold u8; apply Z.mod_small; lia).
  pose proof (pattern_range (timeCounter s + 1)) as (Hw & Hr & Hs).
  unfold TIMER1_COMPA_vect.
  destruct (EXTENDED PIND); [| destruct (NORMAL PIND)]; cbv zeta; mcu_simpl;
    rewrite ?Hu;
    repeat match goal with
           | |- context [if ?a <? ?b then _ else _] => destruct (Z.ltb_spec a b)
           end;
    try apply cycle_inv_stopped;
    unfold cycle_inv, timer_consistent, outputs_in_range;
    (split; [exact Hc |]);
    (split; [mcu_simpl; change (nth 1 pwm 0) with 128;
             change (nth 2 pwm 0) with 26; repeat split; try lia; tauto |]);
    (split; [intros Hoff; change (active s = false) in Hoff; congruence |
             intros _; exact (Ha Hact)]).
Qed.

Lemma reachable_cycle_inv (s : mcu) : reachable s -> cycle_inv s.
Proof.
  induction 1 as [| PIND e s Hs IH | PIND s s' Hs IH Hl].
  - unfold cycle_inv, timer_consistent, outputs_in_range.
    split; [reflexivity |].
    split; [split; [split; [reflexivity | reflexivity] |
            split; [split; discriminate | left; reflexivity]] |].
    split; [intros _; repeat split | intros H; discriminate H].
  - pose proof (reachable_idle_or_running s Hs) as (_ & Hfin & _).
    destruct e; unfold deliver.
    + destruct (start_enabled s).
      * destruct (EXTENDED PIND || NORMAL PIND) eqn:Hv.
        -- rewrite (INT0_vect_valid PIND s Hv). apply cycle_inv_started. exact Hfin.
        -- unfold INT0_vect. rewrite Hv.
           destruct (finished s =? 1);
             [apply (cycle_inv_frame s); try reflexivity; [right; reflexivity | exact IH]
             | exact IH].
      * apply (cycle_inv_frame s); try reflexivity; [left; reflexivity | exact IH].
    + destruct (reset_enabled s).
      * apply cycle_inv_stopped.
      * apply (cycle_inv_frame s); try reflexivity; [left; reflexivity | exact IH].
    + destruct (clock_running s) eqn:Hc; [| exact IH].
      destruct (tick_enabled s) eqn:Ht.
      * apply cycle_inv_tick; [exact IH |]. unfold active. rewrite Hc, Ht. reflexivity.
      * apply (cycle_inv_frame s); try reflexivity; [left; reflexivity | exact IH].
  - destruct (main_loop_body_control PIND s s' Hl) as (_ & E2 & E3 & E4).
    destruct (main_loop_body_frame PIND s s' Hl) as ((F1 & F2 & F3 & _) & _).
    apply (cycle_inv_frame s); try assumption. left; exact E4.
Qed.

Lemma reachable_display_inv (s : mcu) : reachable s -> display_inv s.
Proof.
  induction 1 as [| PIND e s Hs IH | PIND s s' Hs IH Hl].
  - unfold display_inv. repeat split; try discriminate. left; reflexivity.
  - assert (F : PORTA (deliver PIND e s) = PORTA s /\
                digit (deliver PIND e s) = digit s /\
                indexNumber (deliver PIND e s) = indexNumber s).
    { destruct e; unfold deliver.
      - destruct (start_enabled s); [| repeat split].
        unfold INT0_vect.
        destruct (EXTENDED PIND || NORMAL PIND); cbv zeta;
          match goal with
          | |- context [if ?c then _ else _] => destruct c
          end; repeat split.
      - destruct (reset_enabled s); repeat split.
      - destruct (clock_running s); [| repeat split].
        destruct (tick_enabled s); [| repeat split].
        destruct (TIMER1_COMPA_vect_shape PIND s) as [(tc & pc & oc & ->) | ->];
          repeat split. }
    unfold display_inv in *. destruct F as (-> & -> & ->). exact IH.
  - destruct (main_loop_body_frame PIND s s' Hl) as (_ & Hd & Hp & Hi).
    destruct IH as (Hdig & _).
    unfold display_inv. rewrite Hd.
    split; [| split; assumption].
    destruct Hdig as [-> | ->]; [right | left]; reflexivity.
Qed.

Lemma no_latched_start_frame (s s' : mcu) :
  EIMSK s' = EIMSK s -> EIFR s' = EIFR s ->
  no_latched_start s -> no_latched_start s'.
Proof. unfold no_latched_start, start_enabled. intros -> ->. tauto. Qed.

Lemma no_latched_start_reset (v : Z) (s : mcu) :
  no_latched_start (set_finished v (reset s)).
Proof.
  intros _.
  change (EIFR (set_finished v (reset s))) with (Z.ldiff (EIFR s) 3).
  rewrite Z.ldiff_spec. apply andb_false_r.
Qed.

Lemma reachable_no_latched_start (s : mcu) : reachable s -> no_latched_start s.
Proof.
  induction 1 as [| PIND e s Hs IH | PIND s s' Hs IH Hl].
  - intros _. reflexivity.
  - destruct e; unfold deliver.
    + destruct (start_enabled s) eqn:He.
      * unfold INT0_vect.
        destruct (EXTENDED PIND || NORMAL PIND); cbv zeta.
        -- destruct (finished (startSystem s) =? 1); intros H; discriminate H.
        -- destruct (finished s =? 1); [| exact IH].
           apply (no_latched_start_frame s); [reflexivity | reflexivity | exact IH].
      * intros H. change (start_enabled s = true) in H. congruence.
    + destruct (reset_enabled s).
      * apply no_latched_start_reset.
      * intros H. change (start_enabled s = true) in H.
        change (EIFR (set_EIFR (Z.lor (EIFR s) (Z.shiftl 1 INTF1)) s))
          with (Z.lor (EIFR s) 2).
        rewrite Z.lor_spec. rewrite (IH H). reflexivity.
    + destruct (clock_running s); [| exact IH].
      destruct (tick_enabled s).
      * destruct (TIMER1_COMPA_vect_shape PIND s) as [(tc & pc & oc & ->) | ->].
        -- apply (no_latched_start_frame s); [reflexivity | reflexivity | exact IH].
        -- apply no_latched_start_reset.
      * apply (no_latched_start_frame s); [reflexivity | reflexivity | exact IH].
  - destruct (main_loop_body_control PIND s s' Hl) as (E1 & _).
    destruct (main_loop_body_frame PIND s s' Hl) as ((_ & _ & _ & _ & F5) & _).
    apply (no_latched_start_frame s); assumption.
Qed.

(** X9: in every state the controller can reach, the Reset interrupt is
    unmasked, [finished] is 0 or 1, the Start interrupt is masked exactly while
    a cycle is active, and timer 1 is clocked exactly while its compare
    interrupt is unmasked. *)
Theorem reachable_control :
  forall s : mcu,
    reachable s ->
    reset_enabled s = true /\
    (finished s = 0 \/ finished s = 1) /\
    start_enabled s = negb (active s) /\
    clock_running s = tick_enabled s.
Proof.
  intros s Hs.
  destruct (reachable_idle_or_running s Hs) as (Hr & Hf & Hst).
  destruct (reachable_cycle_inv s Hs) as (Hc & _).
  repeat split; assumption.
Qed.

Lemma reachable_control_witness :
  reset_enabled after_full_cycle = true /\
  (finished after_full_cycle = 0 \/ finished after_full_cycle = 1) /\
  start_enabled after_full_cycle = negb (active after_full_cycle) /\
  clock_running after_full_cycle = tick_enabled after_full_cycle.
Proof.
  apply (reachable_control after_full_cycle).
  apply reachable_run. apply reachable_init.
Defined.

(** X10: in every reachable state the counter is below 128 (so its 8-bit
    increment never wraps), only the four LED lines of [PORTC] are driven, and
    the PWM compare value is 255 or an entry of [pwm]; while no cycle is active
    the counter is 0, the LEDs are off and the PWM output is off; while a cycle
    is active [finished] is 0. *)
Theorem reachable_outputs :
  forall s : mcu,
    reachable s ->
    0 <= timeCounter s < 128 /\
    0 <= PORTC s <= 15 /\
    (OCR0B s = 255 \/ In (OCR0B s) pwm) /\
    (active s = false -> timeCounter s = 0 /\ PORTC s = 0 /\ OCR0B s = 255) /\
    (active s = true -> finished s = 0).
Proof.
  intros s Hs.
  destruct (reachable_cycle_inv s Hs) as (_ & (Ht & Hp & Ho) & Hi & Ha).
  repeat split; try tauto; try lia.
  cbn [In pwm]. destruct Ho as [O | [O | [O | O]]]; rewrite O; tauto.
Qed.

Lemma reachable_outputs_witness :
  let s := run ((2, StartEdge) :: ticks (repeat 2 70%nat)) (main_init power_on) in
  0 <= timeCounter s < 128 /\
  0 <= PORTC s <= 15 /\
  (OCR0B s = 255 \/ In (OCR0B s) pwm) /\
  (active s = false -> timeCounter s = 0 /\ PORTC s = 0 /\ OCR0B s = 255) /\
  (active s = true -> finished s = 0).
Proof.
  apply (reachable_outputs
           (run ((2, StartEdge) :: ticks (repeat 2 70%nat)) (main_init power_on))).
  apply reachable_run. apply reachable_init.
Defined.

(** X11: in every reachable state [digit] is 0 or 1, [PORTA] holds an 8-bit
    value and [indexNumber] is a valid index of [seven_seg]. *)
Theorem reachable_display_fields :
  forall s : mcu,
    reachable s ->
    (digit s = 0 \/ digit s = 1) /\
    0 <= PORTA s < 256 /\
    (exists seg, nth_error seven_seg (Z.to_nat (indexNumber s)) = Some seg).
Proof.
  intros s Hs.
  destruct (reachable_display_inv s Hs) as (Hd & Hp & Hi).
  split; [exact Hd |]. split; [exact Hp |].
  destruct (seven_seg_lookup (indexNumber s) ltac:(lia)) as [[G _] | [_ (seg & E & _)]];
    [lia | exists seg; exact E].
Qed.

Lemma reachable_display_fields_witness :
  exists s',
    main_loop_body 19 (main_init power_on) = Some s' /\
    (digit s' = 0 \/ digit s' = 1) /\
    0 <= PORTA s' < 256 /\
    (exists seg, nth_error seven_seg (Z.to_nat (indexNumber s')) = Some seg).
Proof.
  eexists. split; [reflexivity |].
  apply reachable_display_fields.
  apply (reachable_loop 19 (main_init power_on)); [apply reachable_init | reflexivity].
Defined.

(** X12: a Start edge that arrives during an active cycle does not run the
    Start handler: it is only latched in [EIFR], and counter, outputs and
    [finished] keep their values. *)
Theorem start_while_active_ignored :
  forall (PIND : Z) (s : mcu),
    reachable s -> active s = true ->
    deliver PIND StartEdge s = set_EIFR (Z.lor (EIFR s) (Z.shiftl 1 INTF0)) s.
Proof.
  intros PIND s Hs Ha.
  destruct (reachable_idle_or_running s Hs) as (_ & _ & Hst).
  rewrite Ha in Hst. unfold deliver. rewrite Hst. reflexivity.
Qed.

Lemma start_while_active_ignored_witness :
  let s := run ((2, StartEdge) :: ticks (repeat 2 40%nat)) (main_init power_on) in
  deliver 1 StartEdge s = set_EIFR (Z.lor (EIFR s) (Z.shiftl 1 INTF0)) s.
Proof.
  apply (start_while_active_ignored 1
           (run ((2, StartEdge) :: ticks (repeat 2 40%nat)) (main_init power_on))).
  - apply reachable_run. apply reachable_init.
  - vm_compute. reflexivity.
Defined.

(** X13: whenever the Start interrupt is unmasked in a reachable state, no
    Start edge is latched in [EIFR]: an edge latched during a cycle is cleared
    by [reset] and never starts a cycle later. *)
Theorem latched_start_never_fires :
  forall s : mcu,
    reachable s -> start_enabled s = true -> Z.testbit (EIFR s) INTF0 = false.
Proof. intros s Hs. exact (reachable_no_latched_start s Hs). Qed.

Lemma latched_start_never_fires_witness :
  Z.testbit
    (EIFR (run ((2, StartEdge) :: (1, Tick) :: (1, StartEdge) :: ticks (repeat 2 95%nat))
               (main_init power_on))) INTF0 = false.
Proof.
  apply latched_start_never_fires.
  - apply reachable_run. apply reachable_init.
  - vm_compute. reflexivity.
Defined.

(** X14: from any reachable state with no cycle active, a Start edge taken
    with the selector in a valid mode begins a cycle: timer running, counter
    0, LED 0 lit, PWM at the 10% value, [finished] clear and further Start
    edges masked. *)
Theorem start_from_idle :
  forall (PIND : Z) (s : mcu),
    reachable s -> active s = false -> valid_mode PIND = true ->
    let s0 := deliver PIND StartEdge s in
    active s0 = true /\ timeCounter s0 = 0 /\ PORTC s0 = 1 /\
    OCR0B s0 = nth 0 pwm 0 /\ finished s0 = 0 /\ start_enabled s0 = false.
Proof.
  intros PIND s Hs Ha Hv.
  destruct (reachable_idle_or_running s Hs) as (_ & Hf & Hst).
  rewrite Ha in Hst. cbn [negb] in Hst.
  destruct (start_begins_cycle PIND s Hst Hv) as (A & T & C & O & F).
  cbv zeta. repeat split; try assumption; [exact (F Hf) |].
  unfold deliver. rewrite Hst. rewrite (INT0_vect_valid PIND s Hv).
  destruct (finished s =? 1); reflexivity.
Qed.

Lemma start_from_idle_witness :
  let s0 := deliver 17 StartEdge after_full_cycle in
  active s0 = true /\ timeCounter s0 = 0 /\ PORTC s0 = 1 /\
  OCR0B s0 = nth 0 pwm 0 /\ finished s0 = 0 /\ start_enabled s0 = false.
Proof.
  apply (start_from_idle 17 after_full_cycle).
  - apply reachable_run. apply reachable_init.
  - vm_compute. reflexivity.
  - reflexivity.
Defined.

(** * Compare matches at water level 3 *)

Lemma timer_consistent_tick (PIND : Z) (s : mcu) :
  timer_consistent s -> timer_consistent (deliver PIND Tick s).
Proof.
  intros Hc. unfold deliver.
  destruct (clock_running s) eqn:Hr; [| exact Hc].
  destruct (tick_enabled s) eqn:Ht.
  - destruct (TIMER1_COMPA_vect_shape PIND s) as [(tc & pc & oc & ->) | ->].
    + exact Hc.
    + reflexivity.
  - exact Hc.
Qed.

Lemma tick_invalid_id (PIND : Z) (s : mcu) :
  timer_consistent s -> valid_mode PIND = false -> deliver PIND Tick s = s.
Proof.
  intros Hc Hv. unfold deliver.
  destruct (clock_running s) eqn:Hr; [| reflexivity].
  unfold timer_consistent in Hc. rewrite Hr in Hc. rewrite <- Hc.
  unfold valid_mode in Hv. apply orb_false_iff in Hv. destruct Hv as [He Hn].
  unfold TIMER1_COMPA_vect. rewrite He, Hn. reflexivity.
Qed.

(** X15: compare matches handled while the selector is in neither mode do
    not count: from a state in which timer 1 is clocked exactly when its
    interrupt is unmasked, a sequence of compare matches leads to the same
    state as the sequence with those matches left out. *)
Theorem invalid_ticks_do_not_count :
  forall (pinds : list Z) (s : mcu),
    timer_consistent s ->
    run (ticks pinds) s = run (ticks (filter valid_mode pinds)) s.
Proof.
  induction pinds as [| PIND pinds IH]; intros s Hc; [reflexivity |].
  cbn [filter ticks map run]. fold (ticks pinds).
  destruct (valid_mode PIND) eqn:Hv.
  - cbn [ticks map run]. fold (ticks (filter valid_mode pinds)).
    apply IH. apply timer_consistent_tick. exact Hc.
  - rewrite (tick_invalid_id PIND s Hc Hv). apply IH. exact Hc.
Qed.

Lemma invalid_ticks_do_not_count_witness :
  run (ticks [1; 3; 17; 7; 2; 19; 2]) (deliver 1 StartEdge (main_init power_on)) =
  run (ticks (filter valid_mode [1; 3; 17; 7; 2; 19; 2]))
      (deliver 1 StartEdge (main_init power_on)).
Proof.
  apply (invalid_ticks_do_not_count [1; 3; 17; 7; 2; 19; 2]
           (deliver 1 StartEdge (main_init power_on))).
  reflexivity.
Defined.

(** * Reset after any history *)

Lemma ldiff_idem (a v : Z) : Z.ldiff (Z.ldiff a v) v = Z.ldiff a v.
Proof.
  apply Z.bits_inj'. intros n _. rewrite !Z.ldiff_spec.
  destruct (Z.testbit a n), (Z.testbit v n); reflexivity.
Qed.

Lemma ldiff_lor_absorb (a b v : Z) :
  Z.ldiff b v = 0 -> Z.ldiff (Z.lor a b) v = Z.ldiff a v.
Proof.
  intros H. apply Z.bits_inj'. intros n _.
  assert (Hn : Z.testbit (Z.ldiff b v) n = false) by (rewrite H; apply Z.testbit_0_l).
  rewrite Z.ldiff_spec in Hn. rewrite !Z.ldiff_spec, Z.lor_spec.
  destruct (Z.testbit a n), (Z.testbit b n), (Z.testbit v n);
    try reflexivity; discriminate Hn.
Qed.

Lemma INT1_vect_after_reset (v : Z) (s : mcu) :
  INT1_vect (set_finished v (reset s)) = INT1_vect s.
Proof. destruct s. mcu_cbv. rewrite !ldiff_idem. reflexivity. Qed.

Lemma INT1_vect_after_start (s : mcu) : INT1_vect (startSystem s) = INT1_vect s.
Proof. destruct s. mcu_cbv. rewrite !ldiff_idem. reflexivity. Qed.

Lemma INT1_vect_after_finished (v : Z) (s : mcu) :
  INT1_vect (set_finished v s) = INT1_vect s.
Proof. mcu_eq s. Qed.

Lemma INT1_vect_after_event (PIND : Z) (e : event) (s : mcu) :
  INT1_vect (deliver PIND e s) = INT1_vect s.
Proof.
  destruct e; unfold deliver.
  - destruct (start_enabled s).
    + unfold INT0_vect.
      destruct (EXTENDED PIND || NORMAL PIND); cbv zeta;
        match goal with
        | |- context [if ?c then _ else _] => destruct c
        end;
        rewrite ?INT1_vect_after_finished, ?INT1_vect_after_start; reflexivity.
    + destruct s. mcu_cbv. rewrite ldiff_lor_absorb by reflexivity. reflexivity.
  - destruct (reset_enabled s).
    + apply (INT1_vect_after_reset 0 s).
    + destruct s. mcu_cbv. rewrite ldiff_lor_absorb by reflexivity. reflexivity.
  - destruct (clock_running s); [| reflexivity].
    destruct (tick_enabled s).
    + destruct (TIMER1_COMPA_vect_shape PIND s) as [(tc & pc & oc & ->) | ->].
      * mcu_eq s.
      * apply INT1_vect_after_reset.
    + destruct s. mcu_cbv. rewrite ldiff_lor_absorb by reflexivity. reflexivity.
Qed.

(** X16: the Reset handler forgets the history of the cycle: after any
    sequence of Start edges, Reset edges and compare matches, under any
    selector values, it produces the state it would have produced before the
    sequence. *)
Theorem reset_forgets_history :
  forall (tr : list (Z * event)) (s : mcu),
    INT1_vect (run tr s) = INT1_vect s.
Proof.
  induction tr as [| [PIND e] tr IH]; intros s; [reflexivity |].
  cbn [run]. rewrite IH. apply INT1_vect_after_event.
Qed.

(** * Timer configuration during a cycle *)

Lemma timer_as_started_frame (s s' : mcu) :
  TCCR1B s' = TCCR1B s -> TIMSK1 s' = TIMSK1 s ->
  timer_as_started s -> timer_as_started s'.
Proof.
  unfold timer_as_started, active, clock_running, tick_enabled.
  intros -> ->. tauto.
Qed.

Lemma timer_as_started_reset (v : Z) (s : mcu) :
  timer_as_started (set_finished v (reset s)).
Proof. intros H. discriminate H. Qed.

Lemma reachable_timer_as_started (s : mcu) : reachable s -> timer_as_started s.
Proof.
  induction 1 as [| PIND e s Hs IH | PIND s s' Hs IH Hl].
  - intros H. discriminate H.
  - destruct e; unfold deliver.
    + destruct (start_enabled s).
      * unfold INT0_vect.
        destruct (EXTENDED PIND || NORMAL PIND); cbv zeta.
        -- destruct (finished (startSystem s) =? 1); intros _; split; reflexivity.
        -- destruct (finished s =? 1); [| exact IH].
           apply (timer_as_started_frame s); [reflexivity | reflexivity | exact IH].
      * apply (timer_as_started_frame s); [reflexivity | reflexivity | exact IH].
    + destruct (reset_enabled s).
      * apply timer_as_started_reset.
      * apply (timer_as_started_frame s); [reflexivity | reflexivity | exact IH].
    + destruct (clock_running s); [| exact IH].
      destruct (tick_enabled s).
      * destruct (TIMER1_COMPA_vect_shape PIND s) as [(tc & pc & oc & ->) | ->].
        -- apply (timer_as_started_frame s); [reflexivity | reflexivity | exact IH].
        -- apply timer_as_started_reset.
      * apply (timer_as_started_frame s); [reflexivity | reflexivity | exact IH].
  - destruct (main_loop_body_control PIND s s' Hl) as (_ & E2 & E3 & _).
    apply (timer_as_started_frame s); assumption.
Qed.

(** X17: whenever a cycle is active in a reachable state, timer 1 runs in
    CTC mode with the prescaler of 256 ([WGM12] and [CS12] set, nothing else)
    and only its compare-A interrupt is unmasked; [reset] clearing [WGM12]
    along with the clock is undone by [startSystem]. *)
Theorem active_timer_configuration :
  forall s : mcu,
    reachable s -> active s = true ->
    TCCR1B s = 12 /\ TIMSK1 s = 2 /\
    Z.testbit (TCCR1B s) WGM12 = true /\ Z.land (TCCR1B s) 7 = Z.shiftl 1 CS12.
Proof.
  intros s Hs Ha.
  destruct (reachable_timer_as_started s Hs Ha) as [-> ->].
  repeat split.
Qed.

Lemma active_timer_configuration_witness :
  let s := run [(3, ResetEdge); (17, StartEdge); (17, Tick)] (main_init power_on) in
  TCCR1B s = 12 /\ TIMSK1 s = 2 /\
  Z.testbit (TCCR1B s) WGM12 = true /\ Z.land (TCCR1B s) 7 = Z.shiftl 1 CS12.
Proof.
  apply (active_timer_configuration
           (run [(3, ResetEdge); (17, StartEdge); (17, Tick)] (main_init power_on))).
  - apply reachable_run. apply reachable_init.
  - vm_compute. reflexivity.
Defined.
